(** * robotarmlib: a shallow embedding of the RobotArm serial controller

    The development follows [src/robotarmlib.py].  Python values are kept as
    the interpreter has them: [int] is an unbounded integer ([Z]), [float] is
    an IEEE-754 binary64 number ([spec_float] at precision 53), [str] is a
    sequence of code points below 256 ([string]), [bytes] is [list byte].
    Methods of [RobotArm] are computations in a state-and-exception monad
    whose state is the object together with the trace of what it did to the
    outside world (serial writes, console prints, sleeps). *)

From Stdlib Require Import ZArith List String Ascii Bool Lia QArith.
From Stdlib Require Import Strings.Byte.
From Stdlib Require Import Floats.SpecFloat.
From Stdlib Require Import Decimal DecimalString DecimalPos.
Import ListNotations.

Local Open Scope string_scope.
Local Open Scope list_scope.
Local Open Scope Z_scope.

(* ===================================================================== *)
(** ** Python numbers *)
(* ===================================================================== *)

Module PyNum.

Definition prec : Z := 53.
Definition emax : Z := 1024.

(** [Union[int, float]] *)
Inductive num : Type :=
| PInt (z : Z)
| PFloat (f : spec_float).

Definition is_finite (f : spec_float) : bool :=
  match f with
  | S754_zero _ | S754_finite _ _ _ => true
  | S754_infinity _ | S754_nan => false
  end.

(** [float(n)] for an [int]: nearest binary64, ties to even.  CPython
    raises OverflowError when the result does not fit; [None] here. *)
Definition float_of_int (z : Z) : option spec_float :=
  match binary_normalize prec emax z 0 false with
  | S754_infinity _ => None
  | f => Some f
  end.

(** [str(z)], the rendering of [f"{z}"] for an [int]. *)
Definition str_int (z : Z) : string := NilZero.string_of_int (Z.to_int z).

(** Nearest integer to [p / q] for [q > 0], ties to even. *)
Definition round_half_even (p q : Z) : Z :=
  let d := p / q in
  let r := p mod q in
  if 2 * r <? q then d
  else if q <? 2 * r then d + 1
  else if Z.even d then d else d + 1.

(** The number of tenths in [m * 2^e], correctly rounded. *)
Definition tenths (m : positive) (e : Z) : Z :=
  if 0 <=? e then Z.pos m * 2 ^ e * 10
  else round_half_even (Z.pos m * 10) (2 ^ (- e)).

Definition sign_str (s : bool) : string := if s then "-" else EmptyString.

(** [format(f, ".1f")]: the exact binary value rounded half-even to one
    decimal; infinities and NaN have their own spelling. *)
Definition format_1f (f : spec_float) : string :=
  match f with
  | S754_nan => "nan"
  | S754_infinity s => (sign_str s ++ "inf")%string
  | S754_zero s => (sign_str s ++ "0" ++ "." ++ "0")%string
  | S754_finite s m e =>
      let t := tenths m e in
      (sign_str s ++ str_int (t / 10) ++ "." ++ str_int (t mod 10))%string
  end.

(** [int + int], [float + int]: the right operand is always an [int] in
    this program.  [None] is CPython's OverflowError of the implicit
    [float(delta)]. *)
Definition add_int (v : num) (d : Z) : option num :=
  match v with
  | PInt z => Some (PInt (z + d))
  | PFloat f =>
      match float_of_int d with
      | Some g => Some (PFloat (SFadd prec emax f g))
      | None => None
      end
  end.

End PyNum.
Export PyNum.

(* ===================================================================== *)
(** ** Python strings: the pieces of [str] the module relies on *)
(* ===================================================================== *)

Module PyStr.

Definition CR : ascii := ascii_of_nat 13.
Definition LF : ascii := ascii_of_nat 10.
Definition CRLF : string := String CR (String LF EmptyString).

Definition code (c : ascii) : Z := Z.of_N (N_of_ascii c).

(** The blanks that [int()] and [float()] skip around a number: the C
    locale's space, \t, \n, \v, \f, \r, and the two blanks above 127 in
    this range, NEL and NBSP, which CPython rewrites to a space first. *)
Definition is_space (c : ascii) : bool :=
  let n := code c in
  (n =? 32) || ((9 <=? n) && (n <=? 13)) || (n =? 133) || (n =? 160).


Definition is_digit (c : ascii) : bool :=
  let n := code c in (48 <=? n) && (n <=? 57).

Definition digit_val (c : ascii) : Z := code c - 48.

Definition lower (c : ascii) : ascii :=
  let n := code c in
  if (65 <=? n) && (n <=? 90) then ascii_of_N (Z.to_N (n + 32)) else c.

Fixpoint lower_str (s : string) : string :=
  match s with
  | EmptyString => EmptyString
  | String c r => String (lower c) (lower_str r)
  end.

(** [gcode.split(' ')]: cut at every single space, keeping empty pieces. *)
Fixpoint split_space (s : string) : list string :=
  match s with
  | EmptyString => [EmptyString]
  | String c r =>
      if Ascii.eqb c " " then EmptyString :: split_space r
      else match split_space r with
           | t :: ts => String c t :: ts
           | [] => [String c EmptyString]
           end
  end.



Fixpoint lstrip (s : string) : string :=
  match s with
  | String c r => if is_space c then lstrip r else s
  | EmptyString => EmptyString
  end.

Fixpoint rstrip (s : string) : string :=
  match s with
  | EmptyString => EmptyString
  | String c r =>
      match rstrip r with
      | EmptyString => if is_space c then EmptyString else String c EmptyString
      | r' => String c r'
      end
  end.

Definition strip (s : string) : string := rstrip (lstrip s).

(** UTF-8 of one code point below 256: one byte, or two from 128 on.
    [utf8_point] below does the same for every code point. *)
Definition utf8_char (c : ascii) : list byte :=
  let n := code c in
  if n <? 128 then [byte_of_ascii c]
  else [byte_of_ascii (ascii_of_N (Z.to_N (192 + n / 64)));
        byte_of_ascii (ascii_of_N (Z.to_N (128 + n mod 64)))].

(** [s.encode(encoding="utf-8")] *)
Fixpoint encode_utf8 (s : string) : list byte :=
  match s with
  | EmptyString => []
  | String c r => utf8_char c ++ encode_utf8 r
  end.

(** [struct.pack("<Ns", data)]: exactly [n] bytes, cut or zero-padded. *)
Definition pack_s (n : nat) (data : list byte) : list byte :=
  firstn n data ++ repeat x00 (n - List.length data)%nat.

(** Does [pat] (already lower case) occur at the head of [s], ignoring
    ASCII case? *)
Fixpoint prefix_ci (pat s : string) : bool :=
  match pat, s with
  | EmptyString, _ => true
  | String p pr, String c r => Ascii.eqb p (lower c) && prefix_ci pr r
  | String _ _, EmptyString => false
  end.

(** [re.compile(pat, flags=re.IGNORECASE).search(s)] for a literal
    pattern, as a truth value. *)
Fixpoint search_ci (pat s : string) : bool :=
  prefix_ci pat s ||
  match s with
  | EmptyString => false
  | String _ r => search_ci pat r
  end.

End PyStr.
Export PyStr.

(* ===================================================================== *)
(** ** The built-in conversions [int(str)] and [float(str)] *)
(* ===================================================================== *)

Module PyParse.

(** An optional leading sign. *)
Definition take_sign (s : string) : bool * string :=
  match s with
  | String c r =>
      if Ascii.eqb c "-" then (true, r)
      else if Ascii.eqb c "+" then (false, r)
      else (false, s)
  | EmptyString => (false, s)
  end.

(** The digits of an [int] literal: [digit (_? digit)*] up to the end of
    the string.  [prev] tells whether the previous character was a digit. *)
Fixpoint int_digits (acc : Z) (prev : bool) (s : string) : option Z :=
  match s with
  | EmptyString => if prev then Some acc else None
  | String c r =>
      if is_digit c then int_digits (10 * acc + digit_val c) true r
      else if Ascii.eqb c "_" then
             if prev then int_digits acc false r else None
      else None
  end.

(** [int(s)]; [None] is ValueError. *)
Definition py_int (s : string) : option Z :=
  let (neg, r) := take_sign (strip s) in
  match int_digits 0 false r with
  | Some z => Some (if neg then - z else z)
  | None => None
  end.

(** Underscores of a [float] literal: legal only between two digits, and
    removed before the number is read. *)
Fixpoint drop_underscores (prev_digit prev_us : bool) (s : string)
  : option string :=
  match s with
  | EmptyString => if prev_us then None else Some EmptyString
  | String c r =>
      if Ascii.eqb c "_" then
        if prev_digit then drop_underscores false true r else None
      else if prev_us && negb (is_digit c) then None
      else match drop_underscores (is_digit c) false r with
           | Some t => Some (String c t)
           | None => None
           end
  end.

(** [m * 10^e] for [m > 0], rounded to the nearest binary64 (ties to
    even), with the sign [neg].  The quotient is cut to at least 56 bits
    and a sticky bit, which [binary_normalize] then rounds. *)
Definition of_decimal (neg : bool) (m e : Z) : spec_float :=
  if m =? 0 then S754_zero neg
  else
    let p := if 0 <=? e then m * 10 ^ e else m in
    let q := if 0 <=? e then 1 else 10 ^ (- e) in
    let sh := Z.log2 p - Z.log2 q - 56 in
    let n := if 0 <=? sh then p else p * 2 ^ (- sh) in
    let d := if 0 <=? sh then q * 2 ^ sh else q in
    let sticky := if n mod d =? 0 then 0 else 1 in
    let mant := 2 * (n / d) + sticky in
    binary_normalize prec emax (if neg then - mant else mant) (sh - 1) neg.

(** A maximal run of digits: accumulated value, how many, and the rest. *)
Fixpoint take_digits (acc cnt : Z) (s : string) : Z * Z * string :=
  match s with
  | String c r =>
      if is_digit c then take_digits (10 * acc + digit_val c) (cnt + 1) r
      else (acc, cnt, s)
  | EmptyString => (acc, cnt, s)
  end.

(** [inf], [infinity] and [nan], in any case, with an optional sign. *)
Definition parse_inf_nan (u : string) : option spec_float :=
  let (neg, r) := take_sign u in
  let w := lower_str r in
  if String.eqb w "inf" || String.eqb w "infinity" then Some (S754_infinity neg)
  else if String.eqb w "nan" then Some S754_nan
  else None.

(** A decimal literal: [sign] digits [. digits] [(e|E) [sign] digits],
    with at least one digit before the exponent. *)
Definition parse_decimal (u : string) : option spec_float :=
  let (neg, r0) := take_sign u in
  let '(ip, ni, r1) := take_digits 0 0 r0 in
  let '(mant, nf, r2) :=
    match r1 with
    | String c r => if Ascii.eqb c "." then take_digits ip 0 r
                    else (ip, 0, r1)
    | EmptyString => (ip, 0, r1)
    end in
  if ni + nf =? 0 then None
  else
    match r2 with
    | EmptyString => Some (of_decimal neg mant (- nf))
    | String c r =>
        if Ascii.eqb c "e" || Ascii.eqb c "E" then
          let (eneg, r3) := take_sign r in
          let '(ev, ne, r4) := take_digits 0 0 r3 in
          match r4 with
          | EmptyString =>
              if ne =? 0 then None
              else Some (of_decimal neg mant ((if eneg then - ev else ev) - nf))
          | String _ _ => None
          end
        else None
    end.

(** [float(s)]; [None] is ValueError. *)
Definition py_float (s : string) : option spec_float :=
  match drop_underscores false false (strip s) with
  | None => None
  | Some u =>
      match parse_inf_nan u with
      | Some f => Some f
      | None => parse_decimal u
      end
  end.

End PyParse.
Export PyParse.

(* ===================================================================== *)
(** ** Exceptions, the serial port, and the world the arm acts on *)
(* ===================================================================== *)

(** The module raises plain [Exception(msg)]; the interpreter and pyserial
    add the built-in ones. *)
Inductive exn : Type :=
| Exception (msg : string)
| OSError (msg : string)
| TypeError
| ValueError
| IndexError
| OverflowError.

(** The four failures of the design, by the message the code raises. *)
Definition ConfigurationError : exn := Exception "No serial port defined".
Definition ConnectionError : exn :=
  Exception "RobotArm serial port is not opened :(".
Definition DeviceNotFoundError : exn := Exception "Cannot find USB port :(".
Definition UnsupportedAttachmentError (tag : Z) : exn :=
  Exception ("unimplemented attachment type: " ++ str_int tag)%string.

Inductive result (A : Type) : Type :=
| Ok (a : A)
| Err (e : exn).
Arguments Ok {A} a.
Arguments Err {A} e.

(** [serial.Serial]: its configuration, whether it is open, and what the
    operating system will answer to [open()] ([None]: the device opens). *)
Record Serial : Type := mkSerial {
  port : option string;
  baudrate : Z;
  timeout : Z;
  is_open : bool;
  open_error : option string
}.

(** What the program does to the outside, in the order it does it. *)
Inductive event : Type :=
| Sleep (seconds : Q)
| Write (data : list byte)
| Print (text : string).

(** The fields of a [RobotArm] object. *)
Record RobotArm : Type := mkRobotArm {
  attachment : Z;
  serial_port : option Serial;
  _dont_print_logs : bool;
  __already_init : bool;
  __x_pos : option num;
  __y_pos : option num;
  __z_pos : option num;
  coarse_step : Z;
  fine_step : Z
}.

Record St : Type := mkSt {
  self : RobotArm;
  trace : list event
}.

Definition set_serial_port (sp : option Serial) (r : RobotArm) : RobotArm :=
  mkRobotArm (attachment r) sp (_dont_print_logs r) (__already_init r)
    (__x_pos r) (__y_pos r) (__z_pos r) (coarse_step r) (fine_step r).
Definition set_already_init (b : bool) (r : RobotArm) : RobotArm :=
  mkRobotArm (attachment r) (serial_port r) (_dont_print_logs r) b
    (__x_pos r) (__y_pos r) (__z_pos r) (coarse_step r) (fine_step r).
Definition set_x_pos (v : option num) (r : RobotArm) : RobotArm :=
  mkRobotArm (attachment r) (serial_port r) (_dont_print_logs r)
    (__already_init r) v (__y_pos r) (__z_pos r) (coarse_step r) (fine_step r).
Definition set_y_pos (v : option num) (r : RobotArm) : RobotArm :=
  mkRobotArm (attachment r) (serial_port r) (_dont_print_logs r)
    (__already_init r) (__x_pos r) v (__z_pos r) (coarse_step r) (fine_step r).
Definition set_z_pos (v : option num) (r : RobotArm) : RobotArm :=
  mkRobotArm (attachment r) (serial_port r) (_dont_print_logs r)
    (__already_init r) (__x_pos r) (__y_pos r) v (coarse_step r) (fine_step r).
Definition set_coarse (v : Z) (r : RobotArm) : RobotArm :=
  mkRobotArm (attachment r) (serial_port r) (_dont_print_logs r)
    (__already_init r) (__x_pos r) (__y_pos r) (__z_pos r) v (fine_step r).
Definition set_fine (v : Z) (r : RobotArm) : RobotArm :=
  mkRobotArm (attachment r) (serial_port r) (_dont_print_logs r)
    (__already_init r) (__x_pos r) (__y_pos r) (__z_pos r) (coarse_step r) v.
Definition set_is_open (b : bool) (sp : Serial) : Serial :=
  mkSerial (port sp) (baudrate sp) (timeout sp) b (open_error sp).

(** *** The monad: state that survives a raised exception *)

Definition M (A : Type) : Type := St -> result A * St.

Definition ret {A} (a : A) : M A := fun s => (Ok a, s).
Definition raise {A} (e : exn) : M A := fun s => (Err e, s).
Definition bind {A B} (m : M A) (k : A -> M B) : M B :=
  fun s => match m s with
           | (Ok a, s') => k a s'
           | (Err e, s') => (Err e, s')
           end.
Definition get_self : M RobotArm := fun s => (Ok (self s), s).
Definition modify_self (f : RobotArm -> RobotArm) : M unit :=
  fun s => (Ok tt, mkSt (f (self s)) (trace s)).
Definition emit (ev : event) : M unit :=
  fun s => (Ok tt, mkSt (self s) (trace s ++ [ev])).
Definition lift {A} (r : result A) : M A := fun s => (r, s).
(** [try: body except OSError as err: handler(err)] *)
Definition try_OSError (body : M unit) (handler : string -> M unit) : M unit :=
  fun s => match body s with
           | (Err (OSError msg), s') => handler msg s'
           | other => other
           end.

Declare Scope py_scope.
Delimit Scope py_scope with py.
Notation "x <- c ;; k" := (bind c (fun x => k))
  (at level 61, c at next level, right associativity) : py_scope.
Notation "c ;; k" := (bind c (fun _ => k))
  (at level 61, right associativity) : py_scope.
Local Open Scope py_scope.

(** The position triple, as [get_pos] returns it. *)
Definition pos3 : Type := (option num * option num * option num)%type.
Definition pos_of (r : RobotArm) : pos3 := (__x_pos r, __y_pos r, __z_pos r).

(** The payloads of the [Write] events of a trace, oldest first. *)
Fixpoint writes (t : list event) : list (list byte) :=
  match t with
  | [] => []
  | Write d :: r => d :: writes r
  | _ :: r => writes r
  end.

(* ===================================================================== *)
(** ** Library constants *)
(* ===================================================================== *)

Definition POS_HOME : string := "home".
Definition POS_END_STOP : string := "end_stop".
Definition POS_BOTTOM : string := "bottom".
Definition POS_REST : string := "rest".

Definition ATTACHMENT_GRIPPER : Z := 0.
Definition ATTACHMENT_FAN : Z := 1.

Definition GCODE_ENABLE_MOTORS : string := "M17".
Definition GCODE_DISABLE_MOTORS : string := "M18".
Definition GCODE_ENABLE_FAN : string := "M106".
Definition GCODE_DISABLE_FAN : string := "M107".
(** ["M3 T{}".format(t)] and ["M5 T{}".format(t)] *)
Definition GCODE_OPEN_GRIPPER (t : Z) : string := ("M3 T" ++ str_int t)%string.
Definition GCODE_CLOSE_GRIPPER (t : Z) : string := ("M5 T" ++ str_int t)%string.
(** ["G1 X{} Y{} Z{}".format(x, y, z)] *)
Definition GCODE_G1 (x y z : string) : string :=
  ("G1 X" ++ x ++ " Y" ++ y ++ " Z" ++ z)%string.

Definition NL : string := String LF EmptyString.

(** A float literal of the source text. *)
Definition float_lit (s : string) : spec_float :=
  match py_float s with Some f => f | None => S754_nan end.

(* ===================================================================== *)
(** ** Static methods *)
(* ===================================================================== *)

(** [functools.reduce(f, it)] without an initial value: TypeError on an
    empty iterable. *)
Definition reduce {A} (f : A -> A -> A) (l : list A) : result A :=
  match l with
  | [] => Err TypeError
  | x :: r => Ok (fold_left f r x)
  end.

Definition usb_regex_search (s : string) : bool := search_ci "usb" s.

(** [port is None] for the element [reduce] returned: a [str] never is. *)
Definition is_None_str (_ : string) : bool := false.

(** [get_default_serial_port]; [ports] is what
    [get_available_serial_port_devices] lists, [os_err] what the operating
    system will answer when a device of that name is opened. *)
Definition get_default_serial_port
    (ports : list string) (os_err : string -> option string) : result Serial :=
  match reduce (fun acc val => val) (filter usb_regex_search ports) with
  | Err e => Err e
  | Ok p =>
      if is_None_str p then Err DeviceNotFoundError
      else Ok (mkSerial (Some p) 9600 2 false (os_err p))
  end.

(** [__encode_gcode]: [struct.pack(f"<{len(gcode)}s", gcode.encode("utf-8"))] *)
Definition __encode_gcode (gcode : string) : list byte :=
  pack_s (String.length gcode) (encode_utf8 gcode).

(* ===================================================================== *)
(** ** Instance methods *)
(* ===================================================================== *)

(** *** The serial port's own methods *)

Definition serial_open (sp : Serial) : result Serial :=
  match port sp with
  | None => Err (OSError "Port must be configured before it can be used.")
  | Some _ =>
      if is_open sp then Err (OSError "Port is already open.")
      else match open_error sp with
           | Some msg => Err (OSError msg)
           | None => Ok (set_is_open true sp)
           end
  end.

Definition serial_write (data : list byte) : M Z :=
  emit (Write data) ;; ret (Z.of_nat (List.length data)).

(** *** Logging *)

Definition __print_log (msg end_ : string) (force : bool) : M unit :=
  r <- get_self ;;
  if negb (_dont_print_logs r) || force
  then emit (Print ("RobotArm: " ++ msg ++ end_)%string)
  else ret tt.

Definition print_log (msg end_ : string) : M unit := __print_log msg end_ false.

(** *** (1) State operation methods *)

Definition is_connection_open : M bool :=
  r <- get_self ;;
  ret (match serial_port r with None => false | Some sp => is_open sp end).

Definition is_connection_not_open : M bool :=
  b <- is_connection_open ;; ret (negb b).

Definition get_pos : M pos3 := r <- get_self ;; ret (pos_of r).

(** *** (3) low level: encode and transmit *)

Definition __gcode_send (gcode : string) : M Z :=
  r <- get_self ;;
  match serial_port r with
  | None => raise ConfigurationError
  | Some _ =>
      closed <- is_connection_not_open ;;
      if closed then raise ConnectionError
      else
        let gcode := (gcode ++ CRLF)%string in
        w_bytes <- serial_write (__encode_gcode gcode) ;;
        print_log gcode EmptyString ;;
        ret w_bytes
  end.

(** *** (4) position bookkeeping *)

(** An argument of [__update_pos]: a number, or the text of a token. *)
Inductive pyarg : Type :=
| ANum (n : num)
| AStr (s : string).

(** [try: int(p) except ValueError: float(p)] for a [str]; a number is kept. *)
Definition coerce (a : pyarg) : M num :=
  match a with
  | ANum n => ret n
  | AStr s =>
      match py_int s with
      | Some z => ret (PInt z)
      | None =>
          match py_float s with
          | Some f => ret (PFloat f)
          | None => raise ValueError
          end
      end
  end.

Definition update_axis (setter : option num -> RobotArm -> RobotArm)
    (a : option pyarg) : M unit :=
  match a with
  | Some v => n <- coerce v ;; modify_self (setter (Some n))
  | None => ret tt
  end.

Definition __update_pos (x_pos y_pos z_pos : option pyarg) : M unit :=
  update_axis set_x_pos x_pos ;;
  update_axis set_y_pos y_pos ;;
  update_axis set_z_pos z_pos.

(** *** (2.2) Movement utility methods *)

(** [f"{v}" if isinstance(v, int) else f"{v:.1f}"]: an [int] takes the
    first branch, a [float] and [None] the second, where [None] has no
    [.1f] format and raises TypeError. *)
Definition fmt_pos (v : option num) : M string :=
  match v with
  | Some (PInt z) => ret (str_int z)
  | Some (PFloat f) => ret (format_1f f)
  | None => raise TypeError
  end.

(** [cur if arg is None else arg] *)
Definition default_to (cur arg : option num) : option num :=
  match arg with None => cur | Some _ => arg end.

Definition gcode_send_pos (x_pos y_pos z_pos : option num) : M Z :=
  r <- get_self ;;
  let x_pos := default_to (__x_pos r) x_pos in
  let y_pos := default_to (__y_pos r) y_pos in
  let z_pos := default_to (__z_pos r) z_pos in
  x_str <- fmt_pos x_pos ;;
  y_str <- fmt_pos y_pos ;;
  z_str <- fmt_pos z_pos ;;
  __update_pos (option_map ANum x_pos) (option_map ANum y_pos)
               (option_map ANum z_pos) ;;
  __gcode_send (GCODE_G1 x_str y_str z_str).

(** *** (2.2.1) Predefined positions *)

Definition gcode_pos_home : M Z :=
  gcode_send_pos (Some (PInt 0)) (Some (PInt 120)) (Some (PInt 120)).

Definition gcode_pos_end_stop : M Z :=
  gcode_send_pos (Some (PFloat (float_lit "0.0")))
                 (Some (PFloat (float_lit "19.5")))
                 (Some (PFloat (float_lit "134.0"))).

Definition gcode_pos_bottom : M Z :=
  gcode_send_pos (Some (PInt 0)) (Some (PInt 100)) (Some (PInt 0)).

Definition gcode_pos_rest : M Z :=
  gcode_send_pos (Some (PInt 0)) (Some (PInt 40)) (Some (PInt 70)).

Definition gcode_pos (to : string) : M Z :=
  if String.eqb to POS_HOME then gcode_pos_home
  else if String.eqb to POS_END_STOP then gcode_pos_end_stop
  else if String.eqb to POS_BOTTOM then gcode_pos_bottom
  else if String.eqb to POS_REST then gcode_pos_rest
  else ret 0.

(** *** (2.2.3) Delta movement *)

(** [cur + delta if delta else cur]: [None] and [0] are falsy; adding to
    [None] is a TypeError. *)
Definition delta_arg (cur : option num) (delta : option Z)
  : result (option num) :=
  match delta with
  | None => Ok cur
  | Some d =>
      if d =? 0 then Ok cur
      else match cur with
           | None => Err TypeError
           | Some v =>
               match add_int v d with
               | Some w => Ok (Some w)
               | None => Err OverflowError
               end
           end
  end.

Definition gcode_send_pos_delta (x_delta y_delta z_delta : option Z) : M Z :=
  r <- get_self ;;
  x_pos <- lift (delta_arg (__x_pos r) x_delta) ;;
  y_pos <- lift (delta_arg (__y_pos r) y_delta) ;;
  z_pos <- lift (delta_arg (__z_pos r) z_delta) ;;
  gcode_send_pos x_pos y_pos z_pos.

(** *** (2.2.2) Step movement *)

Definition set_coarse_step (val : Z) : M unit := modify_self (set_coarse val).
Definition set_fine_step (val : Z) : M unit := modify_self (set_fine val).

Definition gcode_x_coarse_pos : M Z :=
  r <- get_self ;; gcode_send_pos_delta (Some (coarse_step r)) None None.
Definition gcode_y_coarse_pos : M Z :=
  r <- get_self ;; gcode_send_pos_delta None (Some (coarse_step r)) None.
Definition gcode_z_coarse_pos : M Z :=
  r <- get_self ;; gcode_send_pos_delta None None (Some (coarse_step r)).
Definition gcode_x_coarse_neg : M Z :=
  r <- get_self ;; gcode_send_pos_delta (Some (coarse_step r * -1)) None None.
Definition gcode_y_coarse_neg : M Z :=
  r <- get_self ;; gcode_send_pos_delta None (Some (coarse_step r * -1)) None.
Definition gcode_z_coarse_neg : M Z :=
  r <- get_self ;; gcode_send_pos_delta None None (Some (coarse_step r * -1)).
Definition gcode_x_fine_pos : M Z :=
  r <- get_self ;; gcode_send_pos_delta (Some (fine_step r)) None None.
Definition gcode_y_fine_pos : M Z :=
  r <- get_self ;; gcode_send_pos_delta None (Some (fine_step r)) None.
Definition gcode_z_fine_pos : M Z :=
  r <- get_self ;; gcode_send_pos_delta None None (Some (fine_step r)).
Definition gcode_x_fine_neg : M Z :=
  r <- get_self ;; gcode_send_pos_delta (Some (fine_step r * -1)) None None.
Definition gcode_y_fine_neg : M Z :=
  r <- get_self ;; gcode_send_pos_delta None (Some (fine_step r * -1)) None.
Definition gcode_z_fine_neg : M Z :=
  r <- get_self ;; gcode_send_pos_delta None None (Some (fine_step r * -1)).

(** *** (3) low level: raw send *)

(** The dictionary of [gcode_send], looked up with [.get(seg[0], default)].
    Every entry takes the rest of the token; [None] means go on, anything
    else means [break]. *)
Definition seg_action (c : ascii) : string -> M (option string) :=
  if Ascii.eqb c "X" then
    fun p => __update_pos (Some (AStr p)) None None ;; ret None
  else if Ascii.eqb c "Y" then
    fun p => __update_pos None (Some (AStr p)) None ;; ret None
  else if Ascii.eqb c "Z" then
    fun p => __update_pos None None (Some (AStr p)) ;; ret None
  else if Ascii.eqb c "G" then
    fun p => ret None
  else
    fun p => ret (Some "break").

(** The [for seg in gcode.split(' ')] loop; [seg[0]] of an empty piece is
    an IndexError. *)
Fixpoint scan_segs (segs : list string) : M unit :=
  match segs with
  | [] => ret tt
  | seg :: rest =>
      match seg with
      | EmptyString => raise IndexError
      | String c p =>
          r <- seg_action c p ;;
          match r with
          | Some _ => ret tt
          | None => scan_segs rest
          end
      end
  end.

Definition gcode_send (gcode : string) : M Z :=
  scan_segs (split_space gcode) ;;
  __gcode_send gcode.

(** *** (2.1) Motor / attachment utility methods *)

Definition gcode_enable_motors : M Z := __gcode_send GCODE_ENABLE_MOTORS.
Definition gcode_disable_motors : M Z := __gcode_send GCODE_DISABLE_MOTORS.

Definition gcode_close_gripper (t : Z) : M Z :=
  __gcode_send (GCODE_OPEN_GRIPPER t).
Definition gcode_open_gripper (t : Z) : M Z :=
  __gcode_send (GCODE_CLOSE_GRIPPER t).

Definition gcode_enable_fan : M Z := __gcode_send GCODE_ENABLE_FAN.
Definition gcode_disable_fan : M Z := __gcode_send GCODE_DISABLE_FAN.

(** The default of the parameter [t]. *)
Definition default_t : Z := 10.

Definition gcode_attachment_high : M Z :=
  r <- get_self ;;
  if attachment r =? ATTACHMENT_GRIPPER then gcode_close_gripper default_t
  else if attachment r =? ATTACHMENT_FAN then gcode_enable_fan
  else raise (UnsupportedAttachmentError (attachment r)).

Definition gcode_attachment_low : M Z :=
  r <- get_self ;;
  if attachment r =? ATTACHMENT_GRIPPER then gcode_open_gripper default_t
  else if attachment r =? ATTACHMENT_FAN then gcode_disable_fan
  else raise (UnsupportedAttachmentError (attachment r)).

(** *** (2) the initialization sequence *)

Definition settle_delay : Q := 3 # 2.

Definition _init_seq : M unit :=
  r <- get_self ;;
  if __already_init r then print_log "already initialized" NL
  else
    emit (Sleep settle_delay) ;;
    gcode_enable_motors ;;
    gcode_pos_end_stop ;;
    gcode_attachment_low ;;
    modify_self (set_already_init true) ;;
    print_log "initialization complete" NL.

(** *** (1) opening and closing *)

Definition open_connection : M unit :=
  r <- get_self ;;
  match serial_port r with
  | Some sp =>
      try_OSError
        (print_log "Opening connection to serial port" NL ;;
         sp' <- lift (serial_open sp) ;;
         modify_self (set_serial_port (Some sp')))
        (fun err =>
           __print_log ("error opening serial port: " ++ err)%string NL true) ;;
      _init_seq
  | None => raise ConfigurationError
  end.

Definition close_connection : M unit :=
  r <- get_self ;;
  match serial_port r with
  | Some sp =>
      print_log "Closing connection to serial port" NL ;;
      modify_self (set_serial_port (Some (set_is_open false sp)))
  | None => raise ConfigurationError
  end.

(** *** (0) the destructor *)

(** [__del__]: [serial_port.close()] when there is a port and it is open;
    it logs nothing. *)
Definition __del__ : M unit :=
  r <- get_self ;;
  match serial_port r with
  | Some sp =>
      if is_open sp
      then modify_self (set_serial_port (Some (set_is_open false sp)))
      else ret tt
  | None => ret tt
  end.

(** *** (0) the constructor *)

Definition __init__
    (ports : list string) (os_err : string -> option string)
    (attachment_ : Z) (serial_port_ : option Serial)
    (use_default_serial_port start_connection verbose : bool)
  : result unit * St :=
  let obj := mkRobotArm attachment_ serial_port_ (negb verbose) false
                        None None None 20 5 in
  ((match serial_port_ with
    | None =>
        if use_default_serial_port then
          sp <- lift (get_default_serial_port ports os_err) ;;
          modify_self (set_serial_port (Some sp))
        else ret tt
    | Some _ => ret tt
    end) ;;
   opened <- is_connection_open ;;
   if opened then _init_seq
   else if start_connection then open_connection
   else ret tt) (mkSt obj []).

(** *** The public interface as a command language *)

Inductive axis : Type := AxX | AxY | AxZ.

Inductive op : Type :=
| OpOpenConnection
| OpCloseConnection
| OpInitSeq
| OpAttachmentHigh
| OpAttachmentLow
| OpEnableMotors
| OpDisableMotors
| OpCloseGripper (t : Z)
| OpOpenGripper (t : Z)
| OpEnableFan
| OpDisableFan
| OpSendPos (x y z : option num)
| OpPos (to : string)
| OpSetCoarseStep (v : Z)
| OpSetFineStep (v : Z)
| OpStep (a : axis) (coarse positive : bool)
| OpSendPosDelta (dx dy dz : option Z)
| OpSend (gcode : string).

Definition step_method (a : axis) (coarse positive : bool) : M Z :=
  match a, coarse, positive with
  | AxX, true, true => gcode_x_coarse_pos
  | AxY, true, true => gcode_y_coarse_pos
  | AxZ, true, true => gcode_z_coarse_pos
  | AxX, true, false => gcode_x_coarse_neg
  | AxY, true, false => gcode_y_coarse_neg
  | AxZ, true, false => gcode_z_coarse_neg
  | AxX, false, true => gcode_x_fine_pos
  | AxY, false, true => gcode_y_fine_pos
  | AxZ, false, true => gcode_z_fine_pos
  | AxX, false, false => gcode_x_fine_neg
  | AxY, false, false => gcode_y_fine_neg
  | AxZ, false, false => gcode_z_fine_neg
  end.

Definition discard {A} (m : M A) : M unit := m ;; ret tt.

Definition run_op (o : op) : M unit :=
  match o with
  | OpOpenConnection => open_connection
  | OpCloseConnection => close_connection
  | OpInitSeq => _init_seq
  | OpAttachmentHigh => discard gcode_attachment_high
  | OpAttachmentLow => discard gcode_attachment_low
  | OpEnableMotors => discard gcode_enable_motors
  | OpDisableMotors => discard gcode_disable_motors
  | OpCloseGripper t => discard (gcode_close_gripper t)
  | OpOpenGripper t => discard (gcode_open_gripper t)
  | OpEnableFan => discard gcode_enable_fan
  | OpDisableFan => discard gcode_disable_fan
  | OpSendPos x y z => discard (gcode_send_pos x y z)
  | OpPos to => discard (gcode_pos to)
  | OpSetCoarseStep v => set_coarse_step v
  | OpSetFineStep v => set_fine_step v
  | OpStep a c p => discard (step_method a c p)
  | OpSendPosDelta dx dy dz => discard (gcode_send_pos_delta dx dy dz)
  | OpSend g => discard (gcode_send g)
  end.

(** A whole session: operations one after the other, an exception of one
    not stopping the caller from issuing the next. *)
Fixpoint run_ops (os : list op) (s : St) : St :=
  match os with
  | [] => s
  | o :: r => run_ops r (snd (run_op o s))
  end.

(* ===================================================================== *)
(** ** The scripts *)
(* ===================================================================== *)

(** *** [test.py] *)

(** [time.sleep(0.5)] and [time.sleep(0.1)]: the doubles the literals
    denote, one half exactly and the double nearest to one tenth. *)
Definition half_second : Q := 1 # 2.
Definition tenth_second : Q := 3602879701896397 # 36028797018963968.

(** [print(text)] of the script itself. *)
Definition print (text : string) : M unit := emit (Print (text ++ NL)%string).
Definition sleep (seconds : Q) : M unit := emit (Sleep seconds).

(** [main()]: [ports] and [os_err] are the machine the script runs on, as
    for [get_default_serial_port]. *)
Definition main (ports : list string) (os_err : string -> option string)
  : result unit * St :=
  let before := [Print ("Testing robotarmlib" ++ NL)%string; Sleep half_second] in
  match __init__ ports os_err ATTACHMENT_GRIPPER None true true true with
  | (Err e, arm) => (Err e, mkSt (self arm) (before ++ trace arm))
  | (Ok _, arm) =>
      (gcode_pos POS_HOME ;;
       sleep half_second ;;
       gcode_pos POS_BOTTOM ;;
       gcode_z_coarse_neg ;;
       sleep tenth_second ;;
       gcode_z_coarse_neg ;;
       sleep tenth_second ;;
       gcode_z_coarse_neg ;;
       sleep tenth_second ;;
       gcode_z_coarse_neg ;;
       sleep tenth_second ;;
       gcode_z_coarse_neg ;;
       sleep tenth_second ;;
       gcode_z_coarse_neg ;;
       sleep tenth_second ;;
       gcode_z_fine_neg ;;
       sleep half_second ;;
       gcode_attachment_high ;;
       sleep half_second ;;
       gcode_pos POS_END_STOP ;;
       sleep half_second ;;
       gcode_attachment_low ;;
       sleep half_second ;;
       print "all done" ;;
       close_connection) (mkSt (self arm) (before ++ trace arm))
  end.

(** *** [scratchpad.py] *)

Definition to_gcode (cmd : string) : list byte :=
  pack_s (String.length cmd) (encode_utf8 cmd).

Definition sel_baudrate : Z := 9600.

(** The script from top to bottom; it has no object, only the port [ser]
    and what it does to the outside. *)
Definition scratchpad (ports : list string) (os_err : string -> option string)
  : result unit * list event :=
  match reduce (fun acc val => val) (filter usb_regex_search ports) with
  | Err e => (Err e, [])
  | Ok sel_port =>
      let ser := mkSerial (Some sel_port) sel_baudrate 2 false
                          (os_err sel_port) in
      match serial_open ser with
      | Err e => (Err e, [])
      | Ok _ =>
          (Ok tt,
           [Sleep (3 # 2);
            Print ("serial port opened" ++ NL)%string;
            Write (to_gcode ("M17" ++ CRLF)%string);
            Write (to_gcode ("G1 X0.0 Y19.5 Z134.0" ++ CRLF)%string);
            Print ("init" ++ NL)%string;
            Sleep 1;
            Write (to_gcode ("G1 X0 Y120 Z120" ++ CRLF)%string);
            Write (to_gcode ("M3 T10" ++ CRLF)%string);
            Print ("open" ++ NL)%string;
            Sleep 1;
            Write (to_gcode ("M5 T10" ++ CRLF)%string);
            Print ("close" ++ NL)%string;
            Sleep 1;
            Print ("serial port closed" ++ NL)%string])
      end
  end.

(* ===================================================================== *)
(** ** Text beyond Latin-1 *)
(* ===================================================================== *)

(** A [str] in full is a sequence of code points up to U+10FFFF; the
    strings above are the texts whose code points are all below 256.  What
    [__encode_gcode] does to any text is modelled here on the code points
    themselves. *)
Definition text : Type := list Z.

Definition points (s : string) : text := map code (list_ascii_of_string s).

Definition byte_of_Z (n : Z) : byte := byte_of_ascii (ascii_of_N (Z.to_N n)).

(** UTF-8 of one code point: one to four bytes.  A surrogate has no
    encoding ([str.encode] raises UnicodeEncodeError), and a number outside
    the range is no code point: [None] for both. *)
Definition utf8_point (n : Z) : option (list byte) :=
  if n <? 0 then None
  else if n <? 128 then Some [byte_of_Z n]
  else if n <? 2048 then
    Some [byte_of_Z (192 + n / 64); byte_of_Z (128 + n mod 64)]
  else if (55296 <=? n) && (n <=? 57343) then None
  else if n <? 65536 then
    Some [byte_of_Z (224 + n / 4096); byte_of_Z (128 + (n / 64) mod 64);
          byte_of_Z (128 + n mod 64)]
  else if n <? 1114112 then
    Some [byte_of_Z (240 + n / 262144); byte_of_Z (128 + (n / 4096) mod 64);
          byte_of_Z (128 + (n / 64) mod 64); byte_of_Z (128 + n mod 64)]
  else None.

(** [t.encode(encoding="utf-8")] *)
Fixpoint encode_utf8_text (t : text) : option (list byte) :=
  match t with
  | [] => Some []
  | n :: r =>
      match utf8_point n, encode_utf8_text r with
      | Some b, Some bs => Some (b ++ bs)
      | _, _ => None
      end
  end.

(** [__encode_gcode] on a text:
    [struct.pack(f"<{len(gcode)}s", gcode.encode("utf-8"))]. *)
Definition __encode_gcode_text (gcode : text) : option (list byte) :=
  option_map (pack_s (List.length gcode)) (encode_utf8_text gcode).

(** The line terminator that [__gcode_send] appends. *)
Definition CRLF_text : text := [13; 10].

(* ===================================================================== *)
(** ** Specification-side definitions *)
(* ===================================================================== *)

(** These follow the words of the design, not the code; the theorems below
    relate them to the methods above. *)

(** *** The transport *)

(** The three states of the transport. *)
Inductive transport : Type := Absent | Closed | Opened.

Definition transport_of (r : RobotArm) : transport :=
  match serial_port r with
  | None => Absent
  | Some sp => if is_open sp then Opened else Closed
  end.

(** What the encode-and-transmit step raises when it cannot send. *)
Definition transport_error (r : RobotArm) : exn :=
  match serial_port r with
  | None => ConfigurationError
  | Some _ => ConnectionError
  end.

(** *** What a session leaves in the trace *)

(** The events of one successful transmission of [gcode]. *)
Definition sent (r : RobotArm) (gcode : string) : list event :=
  Write (__encode_gcode (gcode ++ CRLF)) ::
  (if negb (_dont_print_logs r)
   then [Print ("RobotArm: " ++ (gcode ++ CRLF) ++ EmptyString)%string]
   else []).

(** What one log line adds to the trace. *)
Definition logged (r : RobotArm) (msg : string) : list event :=
  if negb (_dont_print_logs r)
  then [Print ("RobotArm: " ++ msg ++ NL)%string]
  else [].

Definition is_write (ev : event) : bool :=
  match ev with Write _ => true | _ => false end.


Definition end_stop : pos3 :=
  (Some (PFloat (float_lit "0.0")), Some (PFloat (float_lit "19.5")),
   Some (PFloat (float_lit "134.0"))).


(** *** Positions and literals *)

Definition with_pos (p : pos3) (r : RobotArm) : RobotArm :=
  let '(x, y, z) := p in set_z_pos z (set_y_pos y (set_x_pos x r)).

Definition place (p : pos3) (s : St) : St := mkSt (with_pos p (self s)) (trace s).

(** The literal of one axis in a motion command. *)
Definition render (v : num) : string :=
  match v with
  | PInt z => str_int z
  | PFloat f => format_1f f
  end.

Fixpoint contains_char (c : ascii) (s : string) : bool :=
  match s with
  | EmptyString => false
  | String d r => Ascii.eqb c d || contains_char c r
  end.

(** A rendering with exactly one digit after its only decimal point. *)
Definition one_decimal (s : string) : Prop :=
  exists (pre : string) (d : ascii),
    s = (pre ++ String "." (String d EmptyString))%string /\
    contains_char "." pre = false /\ is_digit d = true.

(** The three axes of an absolute move once omitted arguments have taken
    the tracked value; [None] when one of them is still Unset. *)
Definition resolved (r : RobotArm) (x y z : option num)
  : option (num * num * num) :=
  match default_to (__x_pos r) x, default_to (__y_pos r) y,
        default_to (__z_pos r) z with
  | Some a, Some b, Some c => Some (a, b, c)
  | _, _, _ => None
  end.

(** *** Relative moves *)

Definition is_err {A} (r : result A) : bool :=
  match r with Ok _ => false | Err _ => true end.

(** The three arguments of a relative move, evaluated in the order x, y, z. *)
Definition delta_args (r : RobotArm) (dx dy dz : option Z) : result pos3 :=
  match delta_arg (__x_pos r) dx with
  | Err e => Err e
  | Ok x =>
      match delta_arg (__y_pos r) dy with
      | Err e => Err e
      | Ok y =>
          match delta_arg (__z_pos r) dz with
          | Err e => Err e
          | Ok z => Ok (x, y, z)
          end
      end
  end.

(** A delta that [gcode_send_pos_delta] treats as no movement. *)
Definition falsy (d : option Z) : Prop := d = None \/ d = Some 0.

(** An axis that is still Unset and is asked to move. *)
Definition unset_moved (cur : option num) (d : option Z) : bool :=
  match cur, d with
  | None, Some n => negb (n =? 0)
  | _, _ => false
  end.

(** The sum of this axis does not fit a float. *)
Definition overflows (cur : option num) (d : option Z) : bool :=
  match delta_arg cur d with
  | Err OverflowError => true
  | _ => false
  end.

(** *** The scan of a raw command *)

(** The number a token suffix stands for: an integer if it reads as one,
    else a fractional number, else nothing. *)
Definition num_of_str (s : string) : option num :=
  match py_int s with
  | Some z => Some (PInt z)
  | None => option_map PFloat (py_float s)
  end.

Definition is_axis_letter (c : ascii) : bool :=
  Ascii.eqb c "X" || Ascii.eqb c "Y" || Ascii.eqb c "Z".

Definition set_axis_pos (c : ascii) (v : num) (p : pos3) : pos3 :=
  let '(x, y, z) := p in
  if Ascii.eqb c "X" then (Some v, y, z)
  else if Ascii.eqb c "Y" then (x, Some v, z)
  else (x, y, Some v).

(** The scan of [gcode_send] in the words of the specification, over an
    already tokenised command: an X, Y or Z token sets its axis from its
    numeric suffix, a G token is passed over, any other token ends the scan.
    The second component is the exception the scan ends with, if any: an
    empty token has no first character, a suffix may not be a number. *)
Fixpoint scan_tokens (toks : list string) (p : pos3) : pos3 * option exn :=
  match toks with
  | [] => (p, None)
  | EmptyString :: _ => (p, Some IndexError)
  | String c suffix :: rest =>
      if is_axis_letter c then
        match num_of_str suffix with
        | Some v => scan_tokens rest (set_axis_pos c v p)
        | None => (p, Some ValueError)
        end
      else if Ascii.eqb c "G" then scan_tokens rest p
      else (p, None)
  end.


(** The outcome of a computation that ended with [e], or without exception. *)
Definition ended (e : option exn) : result unit :=
  match e with Some ex => Err ex | None => Ok tt end.

(** *** Invariants *)

(** [preserves P m]: running [m] from a state in [P] ends in [P], whether
    [m] returns or raises. *)
Definition preserves {A} (P : St -> Prop) (m : M A) : Prop :=
  forall s, P s -> P (snd (m s)).

(** The initialized flag is up. *)
Definition initialized (s : St) : Prop := __already_init (self s) = true.

(** The transport cannot carry anything and the bytes written so far are [w]. *)
Definition silent (w : list (list byte)) (s : St) : Prop :=
  transport_of (self s) <> Opened /\ writes (trace s) = w.

Definition op_is_open (o : op) : bool :=
  match o with OpOpenConnection => true | _ => false end.

(** *** Concrete sessions *)

(** A quiet gripper arm as the constructor leaves it when it does not
    connect, over the given transport. *)
Definition fresh (sp : option Serial) : St :=
  mkSt (mkRobotArm ATTACHMENT_GRIPPER sp true false None None None 20 5) [].

Definition usb_port (opened : bool) : Serial :=
  mkSerial (Some "/dev/ttyUSB0") 9600 2 opened None.

(** A port the operating system refuses to open. *)
Definition busy_port : Serial :=
  mkSerial (Some "/dev/ttyUSB0") 9600 2 false
           (Some "could not open port /dev/ttyUSB0").

(** [fresh_open]: the owner of the port opened it after the arm was built. *)
Definition fresh_open : St := fresh (Some (usb_port true)).
Definition fresh_closed : St := fresh (Some (usb_port false)).
Definition fresh_absent : St := fresh None.

(** *** Encoded lines *)

(** A character above 127 takes two bytes in UTF-8. *)
Definition is_wide (c : ascii) : bool := 128 <=? code c.

Fixpoint count_wide (s : string) : nat :=
  match s with
  | EmptyString => O
  | String c r => ((if is_wide c then 1 else 0) + count_wide r)%nat
  end.

(** The bytes of a text, one per character. *)
Definition bytes_of (s : string) : list byte :=
  map byte_of_ascii (list_ascii_of_string s).

(** Every character of a text satisfies [f]. *)
Fixpoint all_chars (f : ascii -> bool) (s : string) : bool :=
  match s with
  | EmptyString => true
  | String c r => f c && all_chars f r
  end.

(** A digit or the minus sign: what an integer literal is made of. *)
Definition is_int_char (c : ascii) : bool := is_digit c || Ascii.eqb c "-".

(** *** Presets and steps *)

(** The four named positions, as the docstrings of the preset methods give
    them; any other name has none. *)
Definition preset_of (to : string) : option (num * num * num) :=
  if String.eqb to "home" then Some (PInt 0, PInt 120, PInt 120)
  else if String.eqb to "end_stop" then
    Some (PFloat (float_lit "0.0"), PFloat (float_lit "19.5"),
          PFloat (float_lit "134.0"))
  else if String.eqb to "bottom" then Some (PInt 0, PInt 100, PInt 0)
  else if String.eqb to "rest" then Some (PInt 0, PInt 40, PInt 70)
  else None.




(** The operations that only actuate: motors and attachment. *)
Definition is_actuation (o : op) : bool :=
  match o with
  | OpAttachmentHigh | OpAttachmentLow | OpEnableMotors | OpDisableMotors
  | OpCloseGripper _ | OpOpenGripper _ | OpEnableFan | OpDisableFan => true
  | _ => false
  end.

(** *** Construction *)

(** The object as the constructor first fills it in. *)
Definition new_arm (att : Z) (sp : option Serial) (verbose : bool) : RobotArm :=
  mkRobotArm att sp (negb verbose) false None None None 20 5.

(** The port that discovery configures for the device [p]. *)
Definition discovered (p : string) (os_err : string -> option string) : Serial :=
  mkSerial (Some p) 9600 2 false (os_err p).

(** *** What stays fixed *)

(** The [Print] events of a trace, oldest first. *)
Fixpoint prints (t : list event) : list string :=
  match t with
  | [] => []
  | Print text :: r => text :: prints r
  | _ :: r => prints r
  end.

Definition sets_step (o : op) : bool :=
  match o with OpSetCoarseStep _ | OpSetFineStep _ => true | _ => false end.

(** Which axes are set. *)
Definition set_axes (r : RobotArm) : bool * bool * bool :=
  (match __x_pos r with Some _ => true | None => false end,
   match __y_pos r with Some _ => true | None => false end,
   match __z_pos r with Some _ => true | None => false end).

(** An axis set on the left is set on the right. *)
Definition axes_kept (before after : bool * bool * bool) : Prop :=
  let '(x, y, z) := before in
  let '(x', y', z') := after in
  (x = true -> x' = true) /\ (y = true -> y' = true) /\ (z = true -> z' = true).

(** The one line a quiet object still prints: a failure to open the port. *)
Definition is_open_failure (text : string) : bool :=
  String.prefix "RobotArm: error opening serial port: " text.


(** What a quiet object has printed since the prints [w]: nothing but
    failures to open the port. *)
Definition quiet_since (w : list string) (s : St) : Prop :=
  _dont_print_logs (self s) = true /\
  exists extra, prints (trace s) = w ++ extra /\
                forallb is_open_failure extra = true.

(** The same, with nothing printed at all. *)
Definition mute_since (w : list string) (s : St) : Prop :=
  _dont_print_logs (self s) = true /\ prints (trace s) = w.


(** *** The scripts *)

(** The device discovery settles on: the last listed one whose name
    contains "usb". *)
Definition last_usb (ports : list string) : option string :=
  match List.rev (filter usb_regex_search ports) with
  | [] => None
  | p :: _ => Some p
  end.

(** The bytes of command lines, each ended by carriage return and line
    feed. *)
Definition lines (cmds : list string) : list (list byte) :=
  map (fun c => bytes_of (c ++ CRLF)%string) cmds.

(** What [test.py] sends when all goes well. *)
Definition test_commands : list string :=
  ["M17"; "G1 X0.0 Y19.5 Z134.0"; "M5 T10";
   "G1 X0 Y120 Z120";
   "G1 X0 Y100 Z0";
   "G1 X0 Y100 Z-20"; "G1 X0 Y100 Z-40"; "G1 X0 Y100 Z-60";
   "G1 X0 Y100 Z-80"; "G1 X0 Y100 Z-100"; "G1 X0 Y100 Z-120";
   "G1 X0 Y100 Z-125";
   "M3 T10";
   "G1 X0.0 Y19.5 Z134.0";
   "M5 T10"]%string.

(** The session of the library that [scratchpad.py] spells out by hand. *)
Definition scratchpad_ops : list op :=
  [OpEnableMotors; OpPos POS_END_STOP; OpPos POS_HOME;
   OpAttachmentHigh; OpAttachmentLow].


(** *** Texts beyond Latin-1 *)

(** The number of bytes of a code point in UTF-8. *)
Definition utf8_width (n : Z) : nat :=
  if n <? 128 then 1 else if n <? 2048 then 2
  else if n <? 65536 then 3 else 4.

(** The code points above 127 of a text. *)
Definition count_wide_text (t : text) : nat :=
  List.length (filter (fun n => 128 <=? n) t).

(** The bytes of the UTF-8 form of a text beyond one per code point. *)
Fixpoint surplus (t : text) : nat :=
  match t with
  | [] => O
  | n :: r => (utf8_width n - 1 + surplus r)%nat
  end.

(** *** The digit limit of the interpreter *)

(** CPython 3.11, and the later releases of 3.7 to 3.10, refuse to convert
    an [int] of more than 4300 digits to text or back (ValueError) unless
    told otherwise; the releases before know no limit.  Up to 4300 digits
    all of them agree. *)
Definition int_max_str_digits : nat := 4300.

Definition digits (z : Z) : nat := String.length (str_int (Z.abs z)).

Definition within_digit_limit (z : Z) : bool :=
  (digits z <=? int_max_str_digits)%nat.

(** A coordinate every interpreter renders: any float, and an integer
    within the digit limit. *)
Definition printable (v : num) : bool :=
  match v with
  | PInt z => within_digit_limit z
  | PFloat _ => true
  end.

(** *** The first sum of a relative move to fail *)

(** Does a sum overflow before the first sum on an unset axis is reached,
    in the order x, y, z? *)
Definition overflow_comes_first (r : RobotArm) (dx dy dz : option Z) : bool :=
  if unset_moved (__x_pos r) dx then false
  else if overflows (__x_pos r) dx then true
  else if unset_moved (__y_pos r) dy then false
  else if overflows (__y_pos r) dy then true
  else if unset_moved (__z_pos r) dz then false
  else overflows (__z_pos r) dz.


(* ===================================================================== *)
(** ** Proof support *)
(* ===================================================================== *)

Ltac unfold_monad :=
  unfold bind, ret, raise, get_self, modify_self, emit, lift, try_OSError in *.

Ltac run :=
  unfold print_log, __print_log, is_connection_not_open, is_connection_open,
    serial_write in *;
  unfold_monad; simpl in *.

Create HintDb arm discriminated.

(** *** The concrete sessions *)

(** [fresh sp] is the object the constructor returns when it is given the
    transport [sp], not yet open, and told neither to discover a port, nor
    to connect, nor to log. *)
Lemma fresh_is_constructed (ports : list string)
    (os_err : string -> option string) (sp : Serial) :
  is_open sp = false ->
  __init__ ports os_err ATTACHMENT_GRIPPER (Some sp) false false false =
    (Ok tt, fresh (Some sp)).
Proof.
  intros H. unfold __init__, fresh, is_connection_open. unfold_monad.
  cbn. rewrite H. reflexivity.
Qed.

(** With a port that opens, the constructor connects and runs the
    handshake: the session it returns is initialized at the end-stop. *)
Lemma constructed_and_connected :
  let out := __init__ ["/dev/ttyUSB0"] (fun _ => None)
                      ATTACHMENT_GRIPPER None true true false in
  fst out = Ok tt /\
  transport_of (self (snd out)) = Opened /\
  __already_init (self (snd out)) = true /\
  pos_of (self (snd out)) = end_stop.
Proof. vm_compute. repeat split. Qed.

(** *** The encode-and-transmit step *)

Lemma transmit_not_open (gcode : string) (s : St) :
  transport_of (self s) <> Opened ->
  __gcode_send gcode s = (Err (transport_error (self s)), s).
Proof.
  destruct s as [r t]. unfold transport_of, transport_error, __gcode_send.
  unfold bind at 1. unfold get_self at 1. simpl.
  destruct (serial_port r) as [sp|] eqn:E; [|reflexivity].
  run. rewrite E. destruct (is_open sp); [congruence | reflexivity].
Qed.

Lemma transmit_open (gcode : string) (s : St) :
  transport_of (self s) = Opened ->
  __gcode_send gcode s =
    (Ok (Z.of_nat (List.length (__encode_gcode (gcode ++ CRLF)))),
     mkSt (self s) (trace s ++ sent (self s) gcode)).
Proof.
  destruct s as [r t]. unfold transport_of, __gcode_send, sent.
  unfold bind at 1. unfold get_self at 1. simpl.
  destruct (serial_port r) as [sp|] eqn:E; [|discriminate].
  run. rewrite E. destruct (is_open sp); [|discriminate]. intros _. simpl.
  destruct (_dont_print_logs r); simpl; rewrite <- ?app_assoc; reflexivity.
Qed.

(** *** Position bookkeeping *)

Lemma update_pos_nums (a b c : num) (s : St) :
  __update_pos (Some (ANum a)) (Some (ANum b)) (Some (ANum c)) s =
    (Ok tt, place (Some a, Some b, Some c) s).
Proof. destruct s as [r t]. reflexivity. Qed.

Lemma fmt_pos_some (v : num) (s : St) : fmt_pos (Some v) s = (Ok (render v), s).
Proof. destruct v; reflexivity. Qed.

(** *** [gcode_send_pos], by whether every resolved axis is a number *)

Lemma send_pos_eq (x y z : option num) (s : St) :
  gcode_send_pos x y z s =
    match resolved (self s) x y z with
    | Some (a, b, c) =>
        __gcode_send (GCODE_G1 (render a) (render b) (render c))
                     (place (Some a, Some b, Some c) s)
    | None => (Err TypeError, s)
    end.
Proof.
  unfold gcode_send_pos, resolved.
  unfold bind at 1. unfold get_self at 1. cbv beta iota.
  destruct (default_to (__x_pos (self s)) x) as [a|]; [|reflexivity].
  unfold bind at 1. rewrite fmt_pos_some.
  destruct (default_to (__y_pos (self s)) y) as [b|]; [|reflexivity].
  unfold bind at 1. rewrite fmt_pos_some.
  destruct (default_to (__z_pos (self s)) z) as [c|]; [|reflexivity].
  unfold bind at 1. rewrite fmt_pos_some. cbn [option_map].
  unfold bind at 1. rewrite update_pos_nums. reflexivity.
Qed.

(** *** [gcode_send_pos_delta]: the three arguments, then the absolute move *)

Lemma send_pos_delta_eq (dx dy dz : option Z) (s : St) :
  gcode_send_pos_delta dx dy dz s =
    match delta_args (self s) dx dy dz with
    | Ok (x, y, z) => gcode_send_pos x y z s
    | Err e => (Err e, s)
    end.
Proof.
  unfold gcode_send_pos_delta, delta_args.
  unfold bind at 1. unfold get_self at 1. cbv beta iota.
  unfold bind at 1, lift at 1.
  destruct (delta_arg (__x_pos (self s)) dx) as [x|e]; [|reflexivity].
  unfold bind at 1, lift at 1.
  destruct (delta_arg (__y_pos (self s)) dy) as [y|e]; [|reflexivity].
  unfold bind at 1, lift at 1.
  destruct (delta_arg (__z_pos (self s)) dz) as [z|e]; reflexivity.
Qed.


(* ===================================================================== *)
(** ** Invariants of computations *)
(* ===================================================================== *)

Section Preserves.
Variable P : St -> Prop.

Lemma preserves_ret {A} (a : A) : preserves P (ret a).
Proof. intros s H. exact H. Qed.

Lemma preserves_raise {A} (e : exn) : preserves P (@raise A e).
Proof. intros s H. exact H. Qed.

Lemma preserves_lift {A} (r : result A) : preserves P (lift r).
Proof. intros s H. exact H. Qed.

Lemma preserves_get_self : preserves P get_self.
Proof. intros s H. exact H. Qed.

Lemma preserves_bind {A B} (m : M A) (k : A -> M B) :
  preserves P m -> (forall a, preserves P (k a)) -> preserves P (bind m k).
Proof.
  intros Hm Hk s H. unfold bind. specialize (Hm s H).
  destruct (m s) as [[a|e] s']; simpl in *; [apply Hk; exact Hm | exact Hm].
Qed.

Lemma preserves_try (body : M unit) (handler : string -> M unit) :
  preserves P body -> (forall msg, preserves P (handler msg)) ->
  preserves P (try_OSError body handler).
Proof.
  intros Hb Hh s H. unfold try_OSError. specialize (Hb s H).
  destruct (body s) as [[a|e] s']; simpl in *; [exact Hb|].
  destruct e; try exact Hb. apply Hh, Hb.
Qed.
End Preserves.

Ltac pres_step :=
  match goal with
  | |- preserves _ (ret _) => apply preserves_ret
  | |- preserves _ (raise _) => apply preserves_raise
  | |- preserves _ (lift _) => apply preserves_lift
  | |- preserves _ get_self => apply preserves_get_self
  | |- preserves _ (try_OSError _ _) => apply preserves_try; [| intros ?]
  | |- preserves _ (bind _ _) => apply preserves_bind; [| intros ?]
  | |- preserves _ (match ?x with _ => _ end) => destruct x
  | |- preserves _ _ => solve [auto with arm]
  end.

Ltac pres := repeat pres_step.

(** Every method, for an invariant that the primitive state changes keep. *)
Section Methods.
Variable P : St -> Prop.
Hypothesis P_log : forall ev, is_write ev = false -> preserves P (emit ev).
Hypothesis P_x : forall v, preserves P (modify_self (set_x_pos v)).
Hypothesis P_y : forall v, preserves P (modify_self (set_y_pos v)).
Hypothesis P_z : forall v, preserves P (modify_self (set_z_pos v)).
Hypothesis P_coarse : forall v, preserves P (modify_self (set_coarse v)).
Hypothesis P_fine : forall v, preserves P (modify_self (set_fine v)).
Hypothesis P_flag : preserves P (modify_self (set_already_init true)).
Hypothesis P_close : forall sp,
  preserves P (modify_self (set_serial_port (Some (set_is_open false sp)))).
Hypothesis P_transmit : forall gcode, preserves P (__gcode_send gcode).

Hint Resolve P_log P_x P_y P_z P_coarse P_fine P_flag P_close P_transmit
  : arm.

Lemma preserves_print_log_raw msg e force : preserves P (__print_log msg e force).
Proof. unfold __print_log. pres. Qed.
Hint Resolve preserves_print_log_raw : arm.

Lemma preserves_print_log msg e : preserves P (print_log msg e).
Proof. unfold print_log. pres. Qed.
Hint Resolve preserves_print_log : arm.

Lemma preserves_coerce a : preserves P (coerce a).
Proof. unfold coerce. pres. Qed.
Hint Resolve preserves_coerce : arm.

Lemma preserves_update_pos x y z : preserves P (__update_pos x y z).
Proof. unfold __update_pos, update_axis. pres. Qed.
Hint Resolve preserves_update_pos : arm.

Lemma preserves_fmt_pos v : preserves P (fmt_pos v).
Proof. unfold fmt_pos. pres. Qed.
Hint Resolve preserves_fmt_pos : arm.

Lemma preserves_send_pos x y z : preserves P (gcode_send_pos x y z).
Proof. unfold gcode_send_pos. pres. Qed.
Hint Resolve preserves_send_pos : arm.

Lemma preserves_pos to : preserves P (gcode_pos to).
Proof.
  unfold gcode_pos, gcode_pos_home, gcode_pos_end_stop, gcode_pos_bottom,
    gcode_pos_rest. pres.
Qed.
Hint Resolve preserves_pos : arm.

Lemma preserves_send_pos_delta dx dy dz :
  preserves P (gcode_send_pos_delta dx dy dz).
Proof. unfold gcode_send_pos_delta. pres. Qed.
Hint Resolve preserves_send_pos_delta : arm.

Lemma preserves_step a c p : preserves P (step_method a c p).
Proof.
  destruct a, c, p; cbn [step_method];
    unfold gcode_x_coarse_pos, gcode_y_coarse_pos, gcode_z_coarse_pos,
      gcode_x_coarse_neg, gcode_y_coarse_neg, gcode_z_coarse_neg,
      gcode_x_fine_pos, gcode_y_fine_pos, gcode_z_fine_pos,
      gcode_x_fine_neg, gcode_y_fine_neg, gcode_z_fine_neg; pres.
Qed.
Hint Resolve preserves_step : arm.

Lemma preserves_seg_action c p : preserves P (seg_action c p).
Proof.
  unfold seg_action.
  destruct (Ascii.eqb c "X"); [pres|].
  destruct (Ascii.eqb c "Y"); [pres|].
  destruct (Ascii.eqb c "Z"); [pres|].
  destruct (Ascii.eqb c "G"); pres.
Qed.
Hint Resolve preserves_seg_action : arm.

Lemma preserves_scan_segs segs : preserves P (scan_segs segs).
Proof.
  induction segs as [|seg rest IH]; cbn [scan_segs]; pres.
Qed.
Hint Resolve preserves_scan_segs : arm.

Lemma preserves_send gcode : preserves P (gcode_send gcode).
Proof. unfold gcode_send. pres. Qed.
Hint Resolve preserves_send : arm.

Lemma preserves_attachment_high : preserves P gcode_attachment_high.
Proof.
  unfold gcode_attachment_high, gcode_close_gripper, gcode_enable_fan. pres.
Qed.

Lemma preserves_attachment_low : preserves P gcode_attachment_low.
Proof.
  unfold gcode_attachment_low, gcode_open_gripper, gcode_disable_fan. pres.
Qed.
Hint Resolve preserves_attachment_high preserves_attachment_low : arm.

Lemma preserves_init_seq : preserves P _init_seq.
Proof.
  unfold _init_seq, gcode_enable_motors, gcode_pos_end_stop. pres.
Qed.
Hint Resolve preserves_init_seq : arm.

Lemma preserves_close_connection : preserves P close_connection.
Proof. unfold close_connection. pres. Qed.
Hint Resolve preserves_close_connection : arm.

(** Every operation but the one that opens the transport. *)
Lemma preserves_run_op (o : op) :
  o <> OpOpenConnection -> preserves P (run_op o).
Proof.
  intros Ho. destruct o; try congruence; cbn [run_op]; unfold discard,
    gcode_enable_motors, gcode_disable_motors, gcode_close_gripper,
    gcode_open_gripper, gcode_enable_fan, gcode_disable_fan,
    set_coarse_step, set_fine_step; pres.
Qed.

(** Opening needs the invariant to survive a change of the port state. *)
Hypothesis P_open : forall sp,
  preserves P (modify_self (set_serial_port (Some sp))).


End Methods.

(** *** The two invariants *)

Lemma writes_app (a b : list event) : writes (a ++ b) = writes a ++ writes b.
Proof.
  induction a as [|ev a IH]; [reflexivity|].
  destruct ev; simpl; rewrite IH; reflexivity.
Qed.

Lemma transport_eq_dec (a b : transport) : {a = b} + {a <> b}.
Proof. decide equality. Qed.

(** Transmitting never touches the object. *)
Lemma transmit_self (gcode : string) (s : St) :
  self (snd (__gcode_send gcode s)) = self s.
Proof.
  destruct (transport_eq_dec (transport_of (self s)) Opened) as [E|E].
  - rewrite transmit_open by exact E. reflexivity.
  - rewrite transmit_not_open by exact E. reflexivity.
Qed.



Lemma silent_run_op (w : list (list byte)) (o : op) :
  o <> OpOpenConnection -> preserves (silent w) (run_op o).
Proof.
  apply preserves_run_op; unfold preserves, silent; intros; try assumption.
  - (* a log line or a sleep *)
    destruct H0 as [Hc Hw]. split; [exact Hc|].
    simpl. rewrite writes_app, Hw. destruct ev; try discriminate;
      simpl; apply app_nil_r.
  - (* closing *)
    destruct H as [Hc Hw]. split; [|exact Hw]. simpl. discriminate.
  - (* the transmit step raises *)
    rewrite transmit_not_open by apply H. exact H.
Qed.

(* ===================================================================== *)
(** ** Sending without an open transport *)
(* ===================================================================== *)

(** C8: the private encode-and-transmit step [__gcode_send] raises the
    configuration error when the session has no transport and the
    connection error when it has one that is not open; in both cases the
    state, and so the trace of bytes written, is exactly what it was.  The
    same holds for every public operation that reaches the step without
    opening the transport first: it writes nothing. *)
Theorem transmit_needs_open_transport (gcode : string) (s : St) :
  (transport_of (self s) = Absent ->
   __gcode_send gcode s = (Err ConfigurationError, s)) /\
  (transport_of (self s) = Closed ->
   __gcode_send gcode s = (Err ConnectionError, s)) /\
  (transport_of (self s) <> Opened ->
   forall o, o <> OpOpenConnection ->
     writes (trace (snd (run_op o s))) = writes (trace s)).
Proof.
  split; [|split].
  - intros H. rewrite transmit_not_open by congruence.
    unfold transport_error, transport_of in *.
    destruct (serial_port (self s)) as [sp|]; [|reflexivity].
    destruct (is_open sp); discriminate.
  - intros H. rewrite transmit_not_open by congruence.
    unfold transport_error, transport_of in *.
    destruct (serial_port (self s)) as [sp|]; [reflexivity|discriminate].
  - intros H o Ho.
    apply (silent_run_op (writes (trace s)) o Ho s). split; [exact H|reflexivity].
Qed.

Lemma transmit_needs_open_transport_witness :
  __gcode_send "M17" fresh_absent = (Err ConfigurationError, fresh_absent) /\
  __gcode_send "M17" fresh_closed = (Err ConnectionError, fresh_closed) /\
  writes (trace (snd (run_op (OpSend "G1 X1") fresh_closed))) = [].
Proof.
  split; [|split].
  - apply (proj1 (transmit_needs_open_transport "M17" fresh_absent)).
    reflexivity.
  - apply (proj1 (proj2 (transmit_needs_open_transport "M17" fresh_closed))).
    reflexivity.
  - apply (proj2 (proj2 (transmit_needs_open_transport "M17" fresh_closed))).
    + discriminate.
    + discriminate.
Defined.




(* ===================================================================== *)
(** ** An omitted axis that was never set *)
(* ===================================================================== *)




(* ===================================================================== *)
(** ** Rendering of coordinates *)
(* ===================================================================== *)

Lemma contains_char_app (c : ascii) (a b : string) :
  contains_char c (a ++ b) = contains_char c a || contains_char c b.
Proof.
  induction a as [|d a IH]; [reflexivity|].
  simpl. rewrite IH. apply orb_assoc.
Qed.

Lemma uint_has_no_point (d : uint) :
  contains_char "." (NilEmpty.string_of_uint d) = false.
Proof. induction d; simpl; auto. Qed.

Lemma str_int_has_no_point (z : Z) : contains_char "." (str_int z) = false.
Proof.
  unfold str_int, NilZero.string_of_int, NilZero.string_of_uint.
  destruct (Z.to_int z) as [d|d]; destruct d; simpl;
    try reflexivity; apply uint_has_no_point.
Qed.

Lemma str_int_digit (k : Z) :
  0 <= k < 10 ->
  exists d, str_int k = String d EmptyString /\ is_digit d = true.
Proof.
  intros H.
  assert (k = 0 \/ k = 1 \/ k = 2 \/ k = 3 \/ k = 4 \/
          k = 5 \/ k = 6 \/ k = 7 \/ k = 8 \/ k = 9) as Hk by lia.
  repeat destruct Hk as [->|Hk]; try subst k;
    eexists; split; reflexivity.
Qed.

Lemma sign_str_has_no_point (b : bool) : contains_char "." (sign_str b) = false.
Proof. destruct b; reflexivity. Qed.

Lemma string_app_assoc (a b c : string) :
  ((a ++ b) ++ c = a ++ (b ++ c))%string.
Proof. induction a as [|d a IH]; simpl; [reflexivity | now rewrite IH]. Qed.

Lemma format_1f_finite (f : spec_float) :
  is_finite f = true -> one_decimal (format_1f f).
Proof.
  destruct f as [s|s| |s m e]; try discriminate; intros _.
  - exists (sign_str s ++ "0")%string, "0"%char.
    destruct s; repeat split.
  - cbn [format_1f].
    destruct (str_int_digit (tenths m e mod 10)) as [d [Hd Hdig]];
      [apply Z.mod_pos_bound; lia|].
    exists (sign_str s ++ str_int (tenths m e / 10))%string, d.
    rewrite Hd. split; [|split; [|exact Hdig]].
    + rewrite string_app_assoc. reflexivity.
    + rewrite contains_char_app, sign_str_has_no_point, str_int_has_no_point.
      reflexivity.
Qed.

Lemma inf_not_one_decimal : ~ one_decimal "inf".
Proof.
  intros [pre [d [H _]]].
  destruct pre as [|c1 [|c2 [|c3 [|c4 pre]]]]; simpl in H; discriminate.
Qed.

(** C5, as stated, fails on the fractional values that are not finite:
    [gcode_send("G1 X1 Y2 Zinf")] stores the float infinity as the tracked
    z, and the next [gcode_send_pos()] renders it as [inf], which has no
    decimal point at all: the second line on the wire is again
    [G1 X1 Y2 Zinf]. *)
Lemma infinite_coordinate_has_no_decimal :
  let s1 := snd (gcode_send "G1 X1 Y2 Zinf" fresh_open) in
  __z_pos (self s1) = Some (PFloat (S754_infinity false)) /\
  writes (trace (snd (gcode_send_pos None None None s1))) =
    [bytes_of "G1 X1 Y2 Zinf" ++ [x0d; x0a];
     bytes_of "G1 X1 Y2 Zinf" ++ [x0d; x0a]] /\
  fmt_pos (Some (PFloat (S754_infinity false))) s1 = (Ok "inf"%string, s1) /\
  contains_char "." "inf" = false /\
  ~ one_decimal "inf".
Proof.
  split; [reflexivity|]. split; [reflexivity|]. split; [reflexivity|].
  split; [reflexivity|]. exact inf_not_one_decimal.
Qed.

(* ===================================================================== *)
(** ** Relative moves *)
(* ===================================================================== *)

Lemma delta_arg_set (v : num) (d : option Z) (w : option num) :
  delta_arg (Some v) d = Ok w -> exists v', w = Some v' /\ (falsy d -> v' = v).
Proof.
  unfold delta_arg, falsy. destruct d as [n|].
  - destruct (n =? 0) eqn:En.
    + intros [= <-]. eauto.
    + destruct (add_int v n) as [u|]; [|discriminate]. intros [= <-].
      exists u. split; [reflexivity|]. intros [H|[= ->]]; discriminate.
  - intros [= <-]. eauto.
Qed.

(** With every axis set, a relative move whose three sums exist is the
    transmission of one G1 command from the position it moves to. *)
Lemma send_pos_delta_all_set (a b c : num) (dx dy dz : option Z) (s : St)
    (x y z : option num) :
  pos_of (self s) = (Some a, Some b, Some c) ->
  delta_args (self s) dx dy dz = Ok (x, y, z) ->
  exists a' b' c',
    (falsy dx -> a' = a) /\ (falsy dy -> b' = b) /\ (falsy dz -> c' = c) /\
    gcode_send_pos_delta dx dy dz s =
      __gcode_send (GCODE_G1 (render a') (render b') (render c'))
                   (place (Some a', Some b', Some c') s).
Proof.
  intros Hp Hd. rewrite send_pos_delta_eq, Hd.
  unfold pos_of in Hp. injection Hp as Hx Hy Hz.
  unfold delta_args in Hd. rewrite Hx, Hy, Hz in Hd.
  destruct (delta_arg (Some a) dx) as [x0|] eqn:Ex; [|discriminate].
  destruct (delta_arg (Some b) dy) as [y0|] eqn:Ey; [|discriminate].
  destruct (delta_arg (Some c) dz) as [z0|] eqn:Ez; [|discriminate].
  injection Hd as <- <- <-.
  destruct (delta_arg_set _ _ _ Ex) as [a' [-> Ha]].
  destruct (delta_arg_set _ _ _ Ey) as [b' [-> Hb]].
  destruct (delta_arg_set _ _ _ Ez) as [c' [-> Hc]].
  exists a', b', c'. repeat (split; [assumption|]).
  rewrite send_pos_eq. reflexivity.
Qed.

Lemma delta_arg_unset (cur : option num) (d : option Z) :
  unset_moved cur d = true -> delta_arg cur d = Err TypeError.
Proof.
  unfold unset_moved, delta_arg. destruct cur as [v|]; [discriminate|].
  destruct d as [n|]; [|discriminate]. destruct (n =? 0); [discriminate|].
  reflexivity.
Qed.

Lemma delta_arg_err (cur : option num) (d : option Z) (e : exn) :
  delta_arg cur d = Err e ->
  (e = TypeError /\ unset_moved cur d = true) \/
  (e = OverflowError /\ overflows cur d = true).
Proof.
  unfold overflows, unset_moved, delta_arg.
  destruct d as [n|]; [|discriminate]. destruct (n =? 0); [discriminate|].
  destruct cur as [v|]; [|intros [= <-]; left; split; reflexivity].
  destruct (add_int v n); [discriminate|].
  intros [= <-]. right. split; reflexivity.
Qed.

Lemma delta_arg_ok (cur : option num) (d : option Z) (w : option num) :
  delta_arg cur d = Ok w -> unset_moved cur d = false.
Proof.
  intros H. destruct (unset_moved cur d) eqn:E; [|reflexivity].
  rewrite (delta_arg_unset _ _ E) in H. discriminate.
Qed.

(** C10, as stated, fails: with x tracked as the float 1.0, y still Unset,
    [gcode_send_pos_delta(2**1024, 1)] raises OverflowError, not TypeError:
    the sum for x is evaluated first and its delta does not fit a float. *)
Lemma overflow_precedes_type_error :
  let s := place (Some (PFloat (float_lit "1.0")), None, None) fresh_open in
  unset_moved (__y_pos (self s)) (Some 1) = true /\
  gcode_send_pos_delta (Some (2 ^ 1024)) (Some 1) None s =
    (Err OverflowError, s).
Proof. vm_compute. split; reflexivity. Qed.

(** C10, amended: when some axis is still Unset and carries a nonzero
    delta, [gcode_send_pos_delta] raises while its arguments are evaluated,
    before anything is encoded or written, and the state is unchanged.  The
    sums are evaluated in the order x, y, z and the first to fail decides:
    the exception is the TypeError of adding to an unset position, unless a
    sum evaluated before the first such axis overflows (a fractional
    position plus an integer too large for a float), and then it is
    OverflowError; an overflow on a later axis changes nothing.  When every
    axis that carries a nonzero delta has a set position, evaluating the
    arguments never raises TypeError. *)
Theorem delta_on_unset_axis (dx dy dz : option Z) (s : St) :
  let r := self s in
  (unset_moved (__x_pos r) dx || unset_moved (__y_pos r) dy
     || unset_moved (__z_pos r) dz = true ->
   gcode_send_pos_delta dx dy dz s =
     (Err (if overflow_comes_first r dx dy dz
           then OverflowError else TypeError), s) /\
   (unset_moved (__x_pos r) dx = true ->
    overflow_comes_first r dx dy dz = false) /\
   (overflows (__x_pos r) dx = false -> unset_moved (__y_pos r) dy = true ->
    overflow_comes_first r dx dy dz = false) /\
   (overflows (__x_pos r) dx = false -> overflows (__y_pos r) dy = false ->
    overflow_comes_first r dx dy dz = false)) /\
  (unset_moved (__x_pos r) dx || unset_moved (__y_pos r) dy
     || unset_moved (__z_pos r) dz = false ->
   delta_args r dx dy dz <> Err TypeError).
Proof.
  intros r. split.
  - intros Hu. split; [|split; [|split]].
    + rewrite send_pos_delta_eq. fold r. unfold delta_args, overflow_comes_first.
      destruct (delta_arg (__x_pos r) dx) as [x|e] eqn:Ex.
      2:{ destruct (delta_arg_err _ _ _ Ex) as [[-> Hx]|[-> Hx]].
          - rewrite Hx. reflexivity.
          - rewrite Hx. destruct (unset_moved (__x_pos r) dx) eqn:Ux;
              [|reflexivity].
            rewrite (delta_arg_unset _ _ Ux) in Ex. discriminate. }
      rewrite (delta_arg_ok _ _ _ Ex).
      assert (Ox : overflows (__x_pos r) dx = false)
        by (unfold overflows; rewrite Ex; reflexivity).
      rewrite Ox.
      destruct (delta_arg (__y_pos r) dy) as [y|e] eqn:Ey.
      2:{ destruct (delta_arg_err _ _ _ Ey) as [[-> Hy]|[-> Hy]].
          - rewrite Hy. reflexivity.
          - rewrite Hy. destruct (unset_moved (__y_pos r) dy) eqn:Uy;
              [|reflexivity].
            rewrite (delta_arg_unset _ _ Uy) in Ey. discriminate. }
      rewrite (delta_arg_ok _ _ _ Ey).
      assert (Oy : overflows (__y_pos r) dy = false)
        by (unfold overflows; rewrite Ey; reflexivity).
      rewrite Oy.
      destruct (delta_arg (__z_pos r) dz) as [z|e] eqn:Ez.
      2:{ destruct (delta_arg_err _ _ _ Ez) as [[-> Hz]|[-> Hz]].
          - rewrite Hz. reflexivity.
          - rewrite Hz. destruct (unset_moved (__z_pos r) dz) eqn:Uz;
              [|reflexivity].
            rewrite (delta_arg_unset _ _ Uz) in Ez. discriminate. }
      rewrite (delta_arg_ok _ _ _ Ex), (delta_arg_ok _ _ _ Ey),
        (delta_arg_ok _ _ _ Ez) in Hu. discriminate.
    + intros Hx. unfold overflow_comes_first. rewrite Hx. reflexivity.
    + intros Ox Hy. unfold overflow_comes_first. rewrite Ox, Hy.
      destruct (unset_moved (__x_pos r) dx); reflexivity.
    + intros Ox Oy. unfold overflow_comes_first. rewrite Ox, Oy.
      destruct (unset_moved (__x_pos r) dx) eqn:Ux; [reflexivity|].
      destruct (unset_moved (__y_pos r) dy) eqn:Uy; [reflexivity|].
      destruct (unset_moved (__z_pos r) dz) eqn:Uz; [reflexivity|].
      discriminate Hu.
  - intros Hu. apply orb_false_iff in Hu as [Hu Hz].
    apply orb_false_iff in Hu as [Hx Hy].
    unfold delta_args.
    destruct (delta_arg (__x_pos r) dx) as [x|e] eqn:Ex.
    2:{ destruct (delta_arg_err _ _ _ Ex) as [[_ H]|[-> _]];
          [congruence | discriminate]. }
    destruct (delta_arg (__y_pos r) dy) as [y|e] eqn:Ey.
    2:{ destruct (delta_arg_err _ _ _ Ey) as [[_ H]|[-> _]];
          [congruence | discriminate]. }
    destruct (delta_arg (__z_pos r) dz) as [z|e] eqn:Ez.
    2:{ destruct (delta_arg_err _ _ _ Ez) as [[_ H]|[-> _]];
          [congruence | discriminate]. }
    discriminate.
Qed.

Lemma delta_on_unset_axis_witness :
  let s := place (None, Some (PFloat (float_lit "1.0")), None) fresh_open in
  (gcode_send_pos_delta (Some 5) (Some (2 ^ 1024)) (Some (-20)) s
     = (Err TypeError, s) /\
   gcode_send_pos_delta None (Some (2 ^ 1024)) (Some (-20)) s
     = (Err OverflowError, s)) /\
  delta_args (self (place (None, None, Some (PInt 100)) fresh_open))
             None None (Some (-20)) <> Err TypeError.
Proof.
  split; [split|].
  - apply (proj1 (proj1 (delta_on_unset_axis (Some 5) (Some (2 ^ 1024))
             (Some (-20))
             (place (None, Some (PFloat (float_lit "1.0")), None) fresh_open))
             eq_refl)).
  - apply (proj1 (proj1 (delta_on_unset_axis None (Some (2 ^ 1024))
             (Some (-20))
             (place (None, Some (PFloat (float_lit "1.0")), None) fresh_open))
             eq_refl)).
  - apply (proj2 (delta_on_unset_axis None None (Some (-20))
                    (place (None, None, Some (PInt 100)) fresh_open))).
    reflexivity.
Defined.

(* ===================================================================== *)
(** ** Auto-discovery of the serial port *)
(* ===================================================================== *)

Lemma reduce_last {A} (l : list A) (p : A) :
  reduce (fun acc val => val) (l ++ [p]) = Ok p.
Proof.
  destruct l as [|x l]; [reflexivity|].
  simpl. rewrite fold_left_app. reflexivity.
Qed.

Lemma filter_none {A} (f : A -> bool) (l : list A) :
  forallb (fun q => negb (f q)) l = true -> filter f l = [].
Proof.
  induction l as [|x l IH]; [reflexivity|]. simpl.
  intros H. apply andb_true_iff in H as [Hx Hl].
  destruct (f x); [discriminate|]. apply IH, Hl.
Qed.

(** The guard [if port is None] can never fire: the only failure of
    discovery is the TypeError of [reduce] on an empty sequence. *)
Lemma discovery_failure_is_type_error (ports : list string)
    (os_err : string -> option string) (e : exn) :
  get_default_serial_port ports os_err = Err e -> e = TypeError.
Proof.
  unfold get_default_serial_port, reduce, is_None_str.
  destruct (filter usb_regex_search ports); [|discriminate].
  intros [= <-]. reflexivity.
Qed.

Lemma discovery_without_match (ports : list string)
    (os_err : string -> option string) :
  forallb (fun q => negb (usb_regex_search q)) ports = true ->
  get_default_serial_port ports os_err = Err TypeError.
Proof.
  intros H. unfold get_default_serial_port.
  rewrite (filter_none _ _ H). reflexivity.
Qed.

(** C2, as stated, fails: with two matching devices the second one is
    selected, not the first; with no matching device the failure is the
    TypeError of [reduce], the "Cannot find USB port" exception is never
    raised. *)
Lemma discovery_takes_last_match :
  let ports := ["COM1"; "/dev/ttyUSB0"; "/dev/cu.wchusbserial1410"] in
  find usb_regex_search ports = Some "/dev/ttyUSB0" /\
  get_default_serial_port ports (fun _ => None) =
    Ok (mkSerial (Some "/dev/cu.wchusbserial1410") 9600 2 false None) /\
  get_default_serial_port ["COM1"; "COM2"] (fun _ => None) = Err TypeError /\
  Err (A := Serial) TypeError <> Err DeviceNotFoundError.
Proof. repeat split. discriminate. Qed.

(** C2, amended: auto-discovery selects the last available device whose
    identifier contains "usb" in any letter case: the device after which
    no listed device matches.  The port it returns is unopened, at 9600
    baud with a timeout of 2. *)
Theorem discovery_selects_last_match (before after : list string) (p : string)
    (os_err : string -> option string) :
  usb_regex_search p = true ->
  forallb (fun q => negb (usb_regex_search q)) after = true ->
  get_default_serial_port (before ++ p :: after) os_err =
    Ok (mkSerial (Some p) 9600 2 false (os_err p)).
Proof.
  intros Hp Hafter. unfold get_default_serial_port.
  rewrite filter_app. cbn [filter]. rewrite Hp, (filter_none _ _ Hafter).
  rewrite reduce_last. reflexivity.
Qed.

Lemma discovery_selects_last_match_witness :
  get_default_serial_port
    (["/dev/ttyUSB0"; "COM1"] ++ "/dev/ttyusb1" :: ["/dev/ttyS0"])
    (fun _ => None) =
  Ok (mkSerial (Some "/dev/ttyusb1") 9600 2 false None).
Proof.
  apply (discovery_selects_last_match
           ["/dev/ttyUSB0"; "COM1"] ["/dev/ttyS0"] "/dev/ttyusb1"
           (fun _ => None)); reflexivity.
Defined.

(* ===================================================================== *)
(** ** The scan of [gcode_send] *)
(* ===================================================================== *)

Lemma place_pos_of (s : St) : place (pos_of (self s)) s = s.
Proof. destruct s as [r t]. destruct r. reflexivity. Qed.

Lemma place_place (p q : pos3) (s : St) : place q (place p s) = place q s.
Proof. destruct p as [[? ?] ?], q as [[? ?] ?], s as [r t]. reflexivity. Qed.

Lemma pos_of_place (p : pos3) (s : St) : pos_of (self (place p s)) = p.
Proof. destruct p as [[? ?] ?]. reflexivity. Qed.

Lemma coerce_str (p : string) (s : St) :
  coerce (AStr p) s =
    match num_of_str p with
    | Some v => (Ok v, s)
    | None => (Err ValueError, s)
    end.
Proof.
  unfold coerce, num_of_str. destruct (py_int p); [reflexivity|].
  destruct (py_float p); reflexivity.
Qed.

(** One step of the loop on a non-empty piece. *)
Lemma seg_action_eq (c : ascii) (suffix : string) (s : St) :
  seg_action c suffix s =
    if is_axis_letter c then
      match num_of_str suffix with
      | Some v => (Ok None, place (set_axis_pos c v (pos_of (self s))) s)
      | None => (Err ValueError, s)
      end
    else if Ascii.eqb c "G" then (Ok None, s)
    else (Ok (Some "break"), s).
Proof.
  unfold seg_action, is_axis_letter, set_axis_pos, __update_pos, update_axis.
  destruct s as [r t]. destruct r.
  destruct (Ascii.eqb c "X");
    [ cbn [orb]; unfold_monad; unfold coerce, num_of_str, ret;
      destruct (py_int suffix); [reflexivity|];
      destruct (py_float suffix); reflexivity |].
  destruct (Ascii.eqb c "Y");
    [ cbn [orb]; unfold_monad; unfold coerce, num_of_str, ret;
      destruct (py_int suffix); [reflexivity|];
      destruct (py_float suffix); reflexivity |].
  destruct (Ascii.eqb c "Z");
    [ cbn [orb]; unfold_monad; unfold coerce, num_of_str, ret;
      destruct (py_int suffix); [reflexivity|];
      destruct (py_float suffix); reflexivity |].
  cbn [orb]. destruct (Ascii.eqb c "G"); reflexivity.
Qed.

(** The loop of the code computes the scan of the specification. *)
Lemma scan_segs_eq (toks : list string) (s : St) :
  scan_segs toks s =
    (ended (snd (scan_tokens toks (pos_of (self s)))),
     place (fst (scan_tokens toks (pos_of (self s)))) s).
Proof.
  revert s. induction toks as [|tok rest IH]; intros s.
  - cbn. rewrite place_pos_of. reflexivity.
  - destruct tok as [|c suffix].
    + cbn. rewrite place_pos_of. reflexivity.
    + cbn [scan_segs scan_tokens]. unfold bind. rewrite seg_action_eq.
      destruct (is_axis_letter c).
      * destruct (num_of_str suffix) as [v|].
        -- rewrite IH, pos_of_place, place_place. reflexivity.
        -- cbn. rewrite place_pos_of. reflexivity.
      * destruct (Ascii.eqb c "G").
        -- apply IH.
        -- cbn. rewrite place_pos_of. reflexivity.
Qed.


(** [gcode_send] as a whole: the scan, then the transmit step unless the
    scan raised. *)
Lemma gcode_send_eq (gcode : string) (s : St) :
  gcode_send gcode s =
    let out := scan_tokens (split_space gcode) (pos_of (self s)) in
    match snd out with
    | Some e => (Err e, place (fst out) s)
    | None => __gcode_send gcode (place (fst out) s)
    end.
Proof.
  unfold gcode_send, bind. rewrite scan_segs_eq. cbv zeta.
  destruct (snd (scan_tokens (split_space gcode) (pos_of (self s))));
    reflexivity.
Qed.




(* ===================================================================== *)
(** ** The attachment *)
(* ===================================================================== *)

Lemma print_log_eq (msg : string) (s : St) :
  print_log msg NL s = (Ok tt, mkSt (self s) (trace s ++ logged (self s) msg)).
Proof.
  unfold print_log, __print_log, logged. run.
  destruct (_dont_print_logs (self s)); simpl.
  - rewrite app_nil_r. destruct s; reflexivity.
  - reflexivity.
Qed.

Lemma attachment_high_eq (s : St) :
  gcode_attachment_high s =
    if attachment (self s) =? ATTACHMENT_GRIPPER then __gcode_send "M3 T10" s
    else if attachment (self s) =? ATTACHMENT_FAN then __gcode_send "M106" s
    else (Err (UnsupportedAttachmentError (attachment (self s))), s).
Proof.
  unfold gcode_attachment_high. unfold bind at 1, get_self at 1.
  destruct (attachment (self s) =? ATTACHMENT_GRIPPER); [reflexivity|].
  destruct (attachment (self s) =? ATTACHMENT_FAN); reflexivity.
Qed.

Lemma attachment_low_eq (s : St) :
  gcode_attachment_low s =
    if attachment (self s) =? ATTACHMENT_GRIPPER then __gcode_send "M5 T10" s
    else if attachment (self s) =? ATTACHMENT_FAN then __gcode_send "M107" s
    else (Err (UnsupportedAttachmentError (attachment (self s))), s).
Proof.
  unfold gcode_attachment_low. unfold bind at 1, get_self at 1.
  destruct (attachment (self s) =? ATTACHMENT_GRIPPER); [reflexivity|].
  destruct (attachment (self s) =? ATTACHMENT_FAN); reflexivity.
Qed.




(* ===================================================================== *)
(** ** The initialization sequence *)
(* ===================================================================== *)

Lemma init_seq_again (s : St) :
  initialized s ->
  _init_seq s =
    (Ok tt, mkSt (self s) (trace s ++ logged (self s) "already initialized")).
Proof.
  intros H. unfold _init_seq. unfold bind at 1, get_self at 1.
  unfold initialized in H. rewrite H. apply print_log_eq.
Qed.






(* ===================================================================== *)
(** ** The encoding of a command line *)
(* ===================================================================== *)

Lemma utf8_char_length (c : ascii) :
  List.length (utf8_char c) = ((if is_wide c then 1 else 0) + 1)%nat.
Proof.
  unfold utf8_char, is_wide.
  destruct (code c <? 128) eqn:E.
  - apply Z.ltb_lt in E. destruct (128 <=? code c) eqn:F; [|reflexivity].
    apply Z.leb_le in F. lia.
  - apply Z.ltb_ge in E. destruct (128 <=? code c) eqn:F; [reflexivity|].
    apply Z.leb_gt in F. lia.
Qed.

Lemma encode_utf8_length (s : string) :
  List.length (encode_utf8 s) = (String.length s + count_wide s)%nat.
Proof.
  induction s as [|c s IH]; [reflexivity|].
  cbn [encode_utf8 String.length count_wide].
  rewrite length_app, utf8_char_length, IH. lia.
Qed.

Lemma encode_utf8_app (a b : string) :
  encode_utf8 (a ++ b) = encode_utf8 a ++ encode_utf8 b.
Proof.
  induction a as [|c a IH]; [reflexivity|].
  cbn [append encode_utf8]. rewrite IH. apply app_assoc.
Qed.

Lemma count_wide_app (a b : string) :
  count_wide (a ++ b) = (count_wide a + count_wide b)%nat.
Proof.
  induction a as [|c a IH]; [reflexivity|].
  cbn [append count_wide]. rewrite IH. lia.
Qed.

Lemma string_length_app (a b : string) :
  String.length (a ++ b) = (String.length a + String.length b)%nat.
Proof. induction a as [|c a IH]; [reflexivity|]. simpl. now rewrite IH. Qed.

Lemma encode_utf8_narrow (s : string) :
  count_wide s = O -> encode_utf8 s = bytes_of s.
Proof.
  unfold bytes_of. induction s as [|c s IH]; [reflexivity|].
  cbn [count_wide encode_utf8 list_ascii_of_string map]. intros H.
  destruct (is_wide c) eqn:E; [discriminate|].
  unfold utf8_char. unfold is_wide in E. apply Z.leb_gt in E.
  apply Z.ltb_lt in E. rewrite E. cbn [List.app]. f_equal. apply IH. exact H.
Qed.

(** [__encode_gcode] cuts the UTF-8 text to as many bytes as the command
    has characters: on a string of code points below 256 what is left over
    is one byte per character above 127. *)
Lemma encode_gcode_cut (gcode : string) :
  __encode_gcode gcode = firstn (String.length gcode) (encode_utf8 gcode) /\
  encode_utf8 gcode =
    __encode_gcode gcode ++ skipn (String.length gcode) (encode_utf8 gcode) /\
  List.length (skipn (String.length gcode) (encode_utf8 gcode)) = count_wide gcode.
Proof.
  unfold __encode_gcode, pack_s.
  assert (L := encode_utf8_length gcode).
  replace (String.length gcode - List.length (encode_utf8 gcode))%nat with O
    by lia.
  cbn [repeat]. rewrite app_nil_r. split; [reflexivity|]. split.
  - symmetry. apply firstn_skipn.
  - rewrite length_skipn. lia.
Qed.

Lemma encode_gcode_size (gcode : string) :
  List.length (__encode_gcode gcode) = String.length gcode.
Proof.
  destruct (encode_gcode_cut gcode) as [Hc [_ _]].
  rewrite Hc, length_firstn, encode_utf8_length. lia.
Qed.

Lemma bytes_of_length (s : string) : List.length (bytes_of s) = String.length s.
Proof.
  unfold bytes_of. rewrite length_map. induction s; simpl; lia.
Qed.

(** X1: [__encode_gcode] returns exactly as many bytes as the command has
    characters; for a command without characters above 127 they are the
    characters themselves, byte for byte. *)
Theorem encode_gcode_length (gcode : string) :
  List.length (__encode_gcode gcode) = String.length gcode /\
  (count_wide gcode = O -> __encode_gcode gcode = bytes_of gcode).
Proof.
  split; [apply encode_gcode_size|].
  destruct (encode_gcode_cut gcode) as [Hc [_ _]].
  intros H. rewrite Hc, (encode_utf8_narrow _ H).
  apply firstn_all2. rewrite bytes_of_length. lia.
Qed.

Lemma encode_gcode_length_witness :
  __encode_gcode "M17" = bytes_of "M17".
Proof.
  apply (proj2 (encode_gcode_length "M17")). reflexivity.
Defined.

Lemma last_app_nonempty {A} (a b : list A) (d : A) :
  b <> [] -> last (a ++ b) d = last b d.
Proof.
  intros Hb. induction a as [|x a IH]; [reflexivity|].
  cbn [List.app]. destruct (a ++ b) eqn:E.
  - destruct a; [simpl in E; congruence | discriminate].
  - cbn [last]. exact IH.
Qed.

Lemma encode_line (gcode : string) :
  encode_utf8 (gcode ++ CRLF) = encode_utf8 gcode ++ [x0d; x0a] /\
  count_wide (gcode ++ CRLF) = count_wide gcode /\
  String.length (gcode ++ CRLF) = (String.length gcode + 2)%nat.
Proof.
  rewrite encode_utf8_app, count_wide_app, string_length_app.
  repeat split. cbn. lia.
Qed.

Lemma utf8_point_width (n : Z) (b : list byte) :
  utf8_point n = Some b ->
  List.length b = utf8_width n /\ (1 <= utf8_width n)%nat /\
  ((128 <=? n) = true -> (2 <= utf8_width n)%nat).
Proof.
  unfold utf8_point, utf8_width.
  destruct (n <? 0); [discriminate|].
  destruct (Z.ltb_spec n 128).
  - intros [= <-]. repeat split; [lia|].
    intros H'. apply Z.leb_le in H'. lia.
  - destruct (n <? 2048).
    + intros [= <-]. repeat split; lia.
    + destruct ((55296 <=? n) && (n <=? 57343)); [discriminate|].
      destruct (n <? 65536).
      * intros [= <-]. repeat split; lia.
      * destruct (n <? 1114112); [|discriminate].
        intros [= <-]. repeat split; lia.
Qed.

Lemma encode_utf8_text_length (t : text) (b : list byte) :
  encode_utf8_text t = Some b ->
  List.length b = (List.length t + surplus t)%nat /\
  (count_wide_text t <= surplus t)%nat.
Proof.
  revert b. induction t as [|n t IH]; intros b.
  - intros [= <-]. split; [reflexivity | apply Nat.le_refl].
  - cbn [encode_utf8_text surplus]. unfold count_wide_text. cbn [filter].
    destruct (utf8_point n) as [bn|] eqn:En; [|discriminate].
    destruct (encode_utf8_text t) as [bt|]; [|discriminate].
    intros [= <-]. destruct (IH bt eq_refl) as [L W].
    destruct (utf8_point_width n bn En) as [Ln [L1 L2]].
    rewrite length_app, Ln, L. cbn [List.length]. split; [lia|].
    unfold count_wide_text in W.
    destruct (128 <=? n) eqn:E.
    + specialize (L2 eq_refl). cbn [List.length]. lia.
    + lia.
Qed.

Lemma encode_utf8_text_app (a b : text) :
  encode_utf8_text (a ++ b) =
    match encode_utf8_text a, encode_utf8_text b with
    | Some x, Some y => Some (x ++ y)
    | _, _ => None
    end.
Proof.
  induction a as [|n a IH].
  - cbn [List.app encode_utf8_text]. destruct (encode_utf8_text b); reflexivity.
  - rewrite <- app_comm_cons. cbn [encode_utf8_text]. rewrite IH.
    destruct (utf8_point n) as [bn|]; [|reflexivity].
    destruct (encode_utf8_text a) as [x|]; [|reflexivity].
    destruct (encode_utf8_text b) as [y|]; [|reflexivity].
    rewrite app_assoc. reflexivity.
Qed.

Lemma code_bounded (c : ascii) : 0 <= code c < 256.
Proof.
  unfold code. pose proof (N_ascii_bounded c) as H. lia.
Qed.

Lemma byte_of_code (c : ascii) : byte_of_Z (code c) = byte_of_ascii c.
Proof.
  unfold byte_of_Z, code. rewrite N2Z.id, ascii_N_embedding. reflexivity.
Qed.

Lemma utf8_point_code (c : ascii) : utf8_point (code c) = Some (utf8_char c).
Proof.
  pose proof (code_bounded c) as Hc. unfold utf8_point, utf8_char.
  destruct (Z.ltb_spec (code c) 0); [lia|].
  destruct (Z.ltb_spec (code c) 128).
  - rewrite byte_of_code. reflexivity.
  - destruct (Z.ltb_spec (code c) 2048); [reflexivity | lia].
Qed.

Lemma encode_utf8_points (s : string) :
  encode_utf8_text (points s) = Some (encode_utf8 s).
Proof.
  unfold points. induction s as [|c s IH]; [reflexivity|].
  cbn [list_ascii_of_string map encode_utf8_text encode_utf8].
  rewrite utf8_point_code, IH. reflexivity.
Qed.

Lemma points_length (s : string) : List.length (points s) = String.length s.
Proof.
  unfold points. rewrite length_map. induction s; simpl; lia.
Qed.

(** X2: a command with a character above 127 is never sent whole, whatever
    the character.  [__encode_gcode] cuts the UTF-8 form of the terminated
    line to as many bytes as the line has characters, and that form has one
    to three bytes more for each such character; so the UTF-8 form is the
    bytes written followed by a remainder of at least one byte per such
    character, and the remainder ends with the line feed: the receiver does
    not get it.  On a text of code points below 256 this is the encoding
    used throughout. *)
Theorem wide_command_loses_line_feed (gcode : text) :
  (forall s : string,
     __encode_gcode_text (points s) = Some (__encode_gcode s)) /\
  (forall full : list byte,
     encode_utf8_text (gcode ++ CRLF_text) = Some full ->
     (0 < count_wide_text gcode)%nat ->
     exists out rest : list byte,
       __encode_gcode_text (gcode ++ CRLF_text) = Some out /\
       full = out ++ rest /\
       List.length out = (List.length gcode + 2)%nat /\
       List.length rest = surplus gcode /\
       (count_wide_text gcode <= List.length rest)%nat /\
       last rest x00 = x0a).
Proof.
  split.
  - intros s. unfold __encode_gcode_text, __encode_gcode.
    rewrite encode_utf8_points, points_length. reflexivity.
  - intros full Hfull Hw.
    pose proof Hfull as Happ. rewrite encode_utf8_text_app in Happ.
    destruct (encode_utf8_text gcode) as [g|] eqn:Eg; [|discriminate].
    change (encode_utf8_text CRLF_text) with (Some [x0d; x0a]) in Happ.
    injection Happ as <-.
    destruct (encode_utf8_text_length _ _ Eg) as [Lg Wg].
    set (n := List.length (gcode ++ CRLF_text)).
    assert (Hn : n = (List.length gcode + 2)%nat)
      by (unfold n; rewrite length_app; reflexivity).
    assert (Lfull : List.length (g ++ [x0d; x0a]) = (n + surplus gcode)%nat)
      by (rewrite length_app, Lg, Hn; cbn [List.length]; lia).
    exists (firstn n (g ++ [x0d; x0a])), (skipn n (g ++ [x0d; x0a])).
    assert (Lrest : List.length (skipn n (g ++ [x0d; x0a])) = surplus gcode)
      by (rewrite length_skipn, Lfull; lia).
    split; [|split; [|split; [|split; [|split]]]].
    + unfold __encode_gcode_text. rewrite Hfull. cbn [option_map]. fold n.
      unfold pack_s.
      replace (n - List.length (g ++ [x0d; x0a]))%nat with O by lia.
      cbn [repeat]. rewrite app_nil_r. reflexivity.
    + symmetry. apply firstn_skipn.
    + rewrite length_firstn, Lfull. lia.
    + exact Lrest.
    + rewrite Lrest. exact Wg.
    + assert (Hne : skipn n (g ++ [x0d; x0a]) <> []).
      { intros E. rewrite E in Lrest. cbn [List.length] in Lrest. lia. }
      rewrite <- (last_app_nonempty (firstn n (g ++ [x0d; x0a])) _ x00 Hne).
      rewrite firstn_skipn.
      rewrite last_app_nonempty by discriminate. reflexivity.
Qed.

Lemma wide_command_loses_line_feed_witness :
  exists out rest : list byte,
    __encode_gcode_text ([88; 65301] ++ CRLF_text) = Some out /\
    [x58; xef; xbc; x95; x0d; x0a] = out ++ rest /\
    List.length out = 4%nat /\
    List.length rest = 2%nat /\
    (1 <= List.length rest)%nat /\
    last rest x00 = x0a.
Proof.
  apply (proj2 (wide_command_loses_line_feed [88; 65301])
           [x58; xef; xbc; x95; x0d; x0a]).
  - reflexivity.
  - cbn. lia.
Defined.

Lemma transmit_open_length (gcode : string) (s : St) :
  transport_of (self s) = Opened ->
  __gcode_send gcode s =
    (Ok (Z.of_nat (String.length gcode) + 2),
     mkSt (self s) (trace s ++ sent (self s) gcode)).
Proof.
  intros Ho. destruct (encode_line gcode) as [_ [_ Hl]].
  rewrite transmit_open by exact Ho.
  rewrite (encode_gcode_size (gcode ++ CRLF)), Hl.
  do 2 f_equal. lia.
Qed.

Lemma sent_narrow (r : RobotArm) (gcode : string) :
  count_wide gcode = O ->
  writes (sent r gcode) = [bytes_of gcode ++ [x0d; x0a]].
Proof.
  intros Hn. destruct (encode_line gcode) as [He [_ Hl]]. unfold sent.
  assert (E : __encode_gcode (gcode ++ CRLF) = bytes_of gcode ++ [x0d; x0a]).
  { destruct (encode_gcode_cut (gcode ++ CRLF)) as [Hcut _].
    rewrite Hcut, He, (encode_utf8_narrow _ Hn), Hl.
    apply firstn_all2. rewrite length_app, bytes_of_length.
    cbn [List.length]. lia. }
  rewrite E. destruct (_dont_print_logs r); reflexivity.
Qed.

(** X3: over an open transport [__gcode_send] returns the number of
    characters of the command plus two, leaves the object as it is and
    appends one transmission to the trace; for a command without characters
    above 127 the bytes written are the command followed by CR and LF. *)
Theorem transmit_returns_length (gcode : string) (s : St) :
  transport_of (self s) = Opened ->
  __gcode_send gcode s =
    (Ok (Z.of_nat (String.length gcode) + 2),
     mkSt (self s) (trace s ++ sent (self s) gcode)) /\
  (count_wide gcode = O ->
   writes (sent (self s) gcode) = [bytes_of gcode ++ [x0d; x0a]]).
Proof.
  intros Ho. split; [apply transmit_open_length, Ho | apply sent_narrow].
Qed.

Lemma transmit_returns_length_witness :
  __gcode_send "M18" fresh_open =
    (Ok 5, mkSt (self fresh_open) [Write (bytes_of "M18" ++ [x0d; x0a])]).
Proof.
  destruct (transmit_returns_length "M18" fresh_open eq_refl) as [H1 H2].
  rewrite H1. reflexivity.
Defined.

(* ===================================================================== *)
(** ** Integer literals read back *)
(* ===================================================================== *)

Lemma uint_all_digits (d : uint) :
  all_chars is_digit (NilEmpty.string_of_uint d) = true.
Proof. induction d; simpl; auto. Qed.

Lemma int_digits_acc (d : uint) (acc : positive) :
  int_digits (Z.pos acc) true (NilEmpty.string_of_uint d) =
    Some (Z.pos (Pos.of_uint_acc d acc)).
Proof.
  revert acc. induction d; intros acc; cbn [NilEmpty.string_of_uint];
    [reflexivity | ..];
    cbn [int_digits Pos.of_uint_acc]; change (is_digit _) with true; cbv iota;
    match goal with
    | |- context [digit_val ?c] =>
        let v := eval vm_compute in (digit_val c) in
        change (digit_val c) with v
    end;
    match goal with
    | |- int_digits ?a true _ = Some (Z.pos (Pos.of_uint_acc _ ?q)) =>
        replace a with (Z.pos q) by lia
    end; apply IHd.
Qed.

Lemma int_digits_zero (d : uint) (prev : bool) :
  d <> Nil \/ prev = true ->
  int_digits 0 prev (NilEmpty.string_of_uint d) = Some (Z.of_N (Pos.of_uint d)).
Proof.
  revert prev. induction d; intros prev H; cbn [NilEmpty.string_of_uint].
  - destruct H as [H| ->]; [congruence | reflexivity].
  - cbn [int_digits Pos.of_uint]. change (is_digit "0") with true. cbv iota.
    change (10 * 0 + digit_val "0") with 0. apply IHd. now right.
  - cbn [int_digits Pos.of_uint]. apply (int_digits_acc d 1).
  - cbn [int_digits Pos.of_uint]. apply (int_digits_acc d 2).
  - cbn [int_digits Pos.of_uint]. apply (int_digits_acc d 3).
  - cbn [int_digits Pos.of_uint]. apply (int_digits_acc d 4).
  - cbn [int_digits Pos.of_uint]. apply (int_digits_acc d 5).
  - cbn [int_digits Pos.of_uint]. apply (int_digits_acc d 6).
  - cbn [int_digits Pos.of_uint]. apply (int_digits_acc d 7).
  - cbn [int_digits Pos.of_uint]. apply (int_digits_acc d 8).
  - cbn [int_digits Pos.of_uint]. apply (int_digits_acc d 9).
Qed.

Lemma all_chars_impl (f g : ascii -> bool) (s : string) :
  (forall c, f c = true -> g c = true) ->
  all_chars f s = true -> all_chars g s = true.
Proof.
  intros Hfg. induction s as [|c s IH]; [reflexivity|]. simpl.
  intros H. apply andb_true_iff in H as [Hc Hs].
  rewrite (Hfg c Hc). apply IH, Hs.
Qed.

Lemma all_chars_app (f : ascii -> bool) (a b : string) :
  all_chars f (a ++ b) = all_chars f a && all_chars f b.
Proof.
  induction a as [|c a IH]; [reflexivity|]. simpl. rewrite IH.
  apply andb_assoc.
Qed.

Lemma digit_code (c : ascii) : is_digit c = true -> 48 <= code c <= 57.
Proof. unfold is_digit. intros H. apply andb_true_iff in H as [A B]. lia. Qed.

Lemma int_char_code (c : ascii) :
  is_int_char c = true -> 45 <= code c <= 57.
Proof.
  unfold is_int_char. intros H. apply orb_true_iff in H as [H|H].
  - apply digit_code in H. lia.
  - apply Ascii.eqb_eq in H. subst c. cbv. split; discriminate.
Qed.

Lemma int_char_not_space (c : ascii) :
  is_int_char c = true -> is_space c = false /\ Ascii.eqb c " " = false.
Proof.
  intros H. apply int_char_code in H. split.
  - unfold is_space.
    repeat match goal with
           | |- context [?a =? ?b] => destruct (Z.eqb_spec a b); [lia|]
           | |- context [?a <=? ?b] => destruct (Z.leb_spec a b)
           end; try reflexivity; lia.
  - destruct (Ascii.eqb_spec c " ") as [->|]; [|reflexivity].
    cbv in H. destruct H as [H _]. exfalso. apply H. reflexivity.
Qed.

Lemma strip_clean (s : string) :
  all_chars (fun c => negb (is_space c)) s = true -> strip s = s.
Proof.
  intros H. unfold strip.
  assert (L : lstrip s = s).
  { destruct s as [|c s]; [reflexivity|]. simpl in H |- *.
    apply andb_true_iff in H as [Hc _]. apply negb_true_iff in Hc.
    now rewrite Hc. }
  rewrite L. clear L. induction s as [|c s IH]; [reflexivity|].
  simpl in H. apply andb_true_iff in H as [Hc Hs].
  apply negb_true_iff in Hc. cbn [rstrip]. rewrite (IH Hs), Hc.
  destruct s; reflexivity.
Qed.

Lemma str_int_chars (z : Z) : all_chars is_int_char (str_int z) = true.
Proof.
  assert (U : forall d, all_chars is_int_char (NilZero.string_of_uint d) = true).
  { intros d. unfold NilZero.string_of_uint.
    destruct d; try reflexivity;
      (eapply all_chars_impl; [|apply uint_all_digits]);
      intros c Hc; unfold is_int_char; now rewrite Hc. }
  unfold str_int, NilZero.string_of_int.
  destruct (Z.to_int z) as [d|d]; [apply U|]. simpl. apply U.
Qed.

Lemma py_int_uint (d : uint) :
  d <> Nil ->
  py_int (NilEmpty.string_of_uint d) = Some (Z.of_N (Pos.of_uint d)) /\
  py_int (String "-" (NilEmpty.string_of_uint d)) =
    Some (- Z.of_N (Pos.of_uint d)).
Proof.
  intros Hd.
  assert (Hs : all_chars (fun c => negb (is_space c))
                 (NilEmpty.string_of_uint d) = true).
  { eapply all_chars_impl; [|apply uint_all_digits].
    intros c Hc. apply negb_true_iff.
    apply (int_char_not_space c). unfold is_int_char. now rewrite Hc. }
  unfold py_int. split.
  - rewrite (strip_clean _ Hs).
    replace (take_sign (NilEmpty.string_of_uint d))
      with (false, NilEmpty.string_of_uint d)
      by (destruct d; try reflexivity; congruence).
    rewrite int_digits_zero by (now left). reflexivity.
  - rewrite strip_clean by (simpl; rewrite Hs; reflexivity).
    cbn [take_sign]. change (Ascii.eqb "-" "-") with true. cbv iota.
    rewrite int_digits_zero by (now left). reflexivity.
Qed.

Lemma py_int_str_int (z : Z) : py_int (str_int z) = Some z.
Proof.
  unfold str_int, NilZero.string_of_int, NilZero.string_of_uint.
  destruct z as [|p|p]; [reflexivity| |]; cbn [Z.to_int].
  - pose proof (DecimalPos.Unsigned.to_uint_nonnil p) as Hn.
    destruct (py_int_uint _ Hn) as [H _].
    destruct (Pos.to_uint p) eqn:E; try congruence;
      rewrite H, <- E, DecimalPos.Unsigned.of_to; reflexivity.
  - pose proof (DecimalPos.Unsigned.to_uint_nonnil p) as Hn.
    destruct (py_int_uint _ Hn) as [_ H].
    destruct (Pos.to_uint p) eqn:E; try congruence;
      rewrite H, <- E, DecimalPos.Unsigned.of_to; reflexivity.
Qed.

Lemma num_of_str_int (z : Z) : num_of_str (str_int z) = Some (PInt z).
Proof. unfold num_of_str. now rewrite py_int_str_int. Qed.

(** X4: an integer axis survives its own literal.  For an integer [z]
    within the digit limit of the interpreter, the formatting step of
    [gcode_send_pos] yields the numeral [str(z)], [int] reads that numeral
    back as [z], and [__update_pos] given the numeral for an axis, as the
    raw path gives it, tracks that axis at the integer [z] and leaves the
    rest of the state alone. *)
Theorem int_literal_round_trip (z : Z) (s : St) :
  within_digit_limit z = true ->
  fmt_pos (Some (PInt z)) s = (Ok (str_int z), s) /\
  py_int (str_int z) = Some z /\
  coerce (AStr (str_int z)) s = (Ok (PInt z), s) /\
  __update_pos (Some (AStr (str_int z))) None None s =
    (Ok tt, mkSt (set_x_pos (Some (PInt z)) (self s)) (trace s)) /\
  __update_pos None (Some (AStr (str_int z))) None s =
    (Ok tt, mkSt (set_y_pos (Some (PInt z)) (self s)) (trace s)) /\
  __update_pos None None (Some (AStr (str_int z))) s =
    (Ok tt, mkSt (set_z_pos (Some (PInt z)) (self s)) (trace s)).
Proof.
  intros _.
  assert (C : forall st, coerce (AStr (str_int z)) st = (Ok (PInt z), st))
    by (intros st; rewrite coerce_str, num_of_str_int; reflexivity).
  split; [reflexivity|]. split; [apply py_int_str_int|].
  split; [apply C|].
  unfold __update_pos, update_axis, bind, ret, modify_self.
  rewrite !C. destruct s as [r t]. repeat split; reflexivity.
Qed.

Lemma int_literal_round_trip_witness :
  fmt_pos (Some (PInt (-125))) fresh_open = (Ok "-125"%string, fresh_open) /\
  py_int "-125" = Some (-125) /\
  __update_pos None None (Some (AStr "-125")) fresh_open =
    (Ok tt, mkSt (set_z_pos (Some (PInt (-125))) (self fresh_open)) []).
Proof.
  destruct (int_literal_round_trip (-125) fresh_open eq_refl)
    as [H1 [H2 [_ [_ [_ H3]]]]].
  split; [exact H1|]. split; [exact H2 | exact H3].
Defined.

Lemma split_space_clean (a : string) :
  all_chars (fun c => negb (Ascii.eqb c " ")) a = true ->
  split_space a = [a] /\
  forall b, split_space (a ++ String " " b) = a :: split_space b.
Proof.
  induction a as [|c a IH]; intros H.
  - split; reflexivity.
  - simpl in H. apply andb_true_iff in H as [Hc Ha].
    apply negb_true_iff in Hc. destruct (IH Ha) as [I1 I2]. split.
    + cbn [split_space]. rewrite Hc, I1. reflexivity.
    + intros b. cbn [append split_space]. rewrite Hc, I2. reflexivity.
Qed.

Lemma str_int_no_space (z : Z) :
  all_chars (fun c => negb (Ascii.eqb c " ")) (str_int z) = true.
Proof.
  eapply all_chars_impl; [|apply str_int_chars].
  intros c Hc. apply negb_true_iff. apply (int_char_not_space c Hc).
Qed.

Lemma split_G1 (x y z : string) :
  all_chars (fun c => negb (Ascii.eqb c " ")) x = true ->
  all_chars (fun c => negb (Ascii.eqb c " ")) y = true ->
  all_chars (fun c => negb (Ascii.eqb c " ")) z = true ->
  split_space (GCODE_G1 x y z) =
    ["G1"; String "X" x; String "Y" y; String "Z" z].
Proof.
  intros Hx Hy Hz. unfold GCODE_G1.
  destruct (split_space_clean x Hx) as [_ Sx].
  destruct (split_space_clean y Hy) as [_ Sy].
  destruct (split_space_clean z Hz) as [Sz _].
  change ("G1 X" ++ x ++ " Y" ++ y ++ " Z" ++ z)%string
    with (String "G" (String "1" (String " " (String "X"
            (x ++ String " " (String "Y"
               (y ++ String " " (String "Z" z)))))))).
  cbn [split_space]. 
  change (Ascii.eqb "G" " ") with false.
  change (Ascii.eqb "1" " ") with false.
  change (Ascii.eqb " " " ") with true.
  change (Ascii.eqb "X" " ") with false. cbv iota.
  rewrite Sx. cbn [split_space].
  change (Ascii.eqb "Y" " ") with false. cbv iota.
  rewrite Sy. cbn [split_space].
  change (Ascii.eqb "Z" " ") with false. cbv iota.
  rewrite Sz. reflexivity.
Qed.

(** X5: for integer coordinates within the digit limit of the interpreter
    the raw path and the typed path agree: [gcode_send] given the very line
    that [gcode_send_pos(x, y, z)] builds does exactly what
    [gcode_send_pos(x, y, z)] does, result, tracked position and trace
    alike, whatever the state of the session. *)
Theorem raw_send_of_integer_move (x y z : Z) (s : St) :
  within_digit_limit x = true ->
  within_digit_limit y = true ->
  within_digit_limit z = true ->
  gcode_send (GCODE_G1 (str_int x) (str_int y) (str_int z)) s =
  gcode_send_pos (Some (PInt x)) (Some (PInt y)) (Some (PInt z)) s.
Proof.
  intros _ _ _. rewrite gcode_send_eq, send_pos_eq.
  rewrite (split_G1 _ _ _ (str_int_no_space x) (str_int_no_space y)
             (str_int_no_space z)).
  assert (R : resolved (self s) (Some (PInt x)) (Some (PInt y))
                (Some (PInt z)) = Some (PInt x, PInt y, PInt z))
    by reflexivity.
  rewrite R.
  assert (E : scan_tokens
                ["G1"; String "X" (str_int x); String "Y" (str_int y);
                 String "Z" (str_int z)] (pos_of (self s)) =
              ((Some (PInt x), Some (PInt y), Some (PInt z)), None)).
  { destruct (pos_of (self s)) as [[px py] pz].
    cbn [scan_tokens].
    change (is_axis_letter "G") with false.
    change (Ascii.eqb "G" "G") with true.
    change (is_axis_letter "X") with true.
    change (is_axis_letter "Y") with true.
    change (is_axis_letter "Z") with true. cbv iota.
    pose proof (num_of_str_int x) as Hx.
    pose proof (num_of_str_int y) as Hy.
    pose proof (num_of_str_int z) as Hz.
    rewrite Hx. cbn [set_axis_pos].
    change (Ascii.eqb "X" "X") with true. cbv iota.
    rewrite Hy. cbn [set_axis_pos].
    change (Ascii.eqb "Y" "X") with false.
    change (Ascii.eqb "Y" "Y") with true. cbv iota.
    rewrite Hz. cbn [set_axis_pos].
    change (Ascii.eqb "Z" "X") with false.
    change (Ascii.eqb "Z" "Y") with false. cbv iota. reflexivity. }
  cbv zeta. rewrite E. reflexivity.
Qed.

Lemma raw_send_of_integer_move_witness :
  gcode_send "G1 X0 Y100 Z-20" fresh_open =
  gcode_send_pos (Some (PInt 0)) (Some (PInt 100)) (Some (PInt (-20)))
                 fresh_open.
Proof.
  exact (raw_send_of_integer_move 0 100 (-20) fresh_open
           eq_refl eq_refl eq_refl).
Defined.

(* ===================================================================== *)
(** ** A move that goes through *)
(* ===================================================================== *)

Lemma int_chars_narrow (s : string) :
  all_chars is_int_char s = true -> count_wide s = O.
Proof.
  induction s as [|c s IH]; [reflexivity|]. simpl.
  intros H. apply andb_true_iff in H as [Hc Hs].
  apply int_char_code in Hc. unfold is_wide.
  destruct (Z.leb_spec 128 (code c)); [lia|]. apply IH, Hs.
Qed.

Lemma str_int_narrow (z : Z) : count_wide (str_int z) = O.
Proof. apply int_chars_narrow, str_int_chars. Qed.

Lemma render_narrow (v : num) : count_wide (render v) = O.
Proof.
  destruct v as [z|f]; [apply str_int_narrow|].
  destruct f as [s|s| |s m e]; cbn [render format_1f];
    rewrite ?count_wide_app, ?str_int_narrow; try destruct s; reflexivity.
Qed.

Lemma G1_narrow (a b c : num) :
  count_wide (GCODE_G1 (render a) (render b) (render c)) = O.
Proof.
  unfold GCODE_G1. rewrite !count_wide_app, !render_narrow. reflexivity.
Qed.

(** X6: over an open transport an absolute move whose three axes resolve
    to numbers the interpreter renders (any float, an integer within its
    digit limit) goes through: it returns the length of the line plus two,
    the tracked position is the resolved triple, and the one write it makes
    is the whole line [G1 X.. Y.. Z..] followed by CR and LF, never cut
    short. *)
Theorem absolute_move_goes_through (x y z : option num) (a b c : num) (s : St) :
  transport_of (self s) = Opened ->
  resolved (self s) x y z = Some (a, b, c) ->
  printable a = true -> printable b = true -> printable c = true ->
  let line := GCODE_G1 (render a) (render b) (render c) in
  gcode_send_pos x y z s =
    (Ok (Z.of_nat (String.length line) + 2),
     mkSt (with_pos (Some a, Some b, Some c) (self s))
          (trace s ++ sent (self s) line)) /\
  writes (sent (self s) line) = [bytes_of line ++ [x0d; x0a]].
Proof.
  intros Ho Hr _ _ _ line. split.
  - rewrite send_pos_eq, Hr. rewrite transmit_open_length.
    + destruct s as [r t]. reflexivity.
    + destruct s as [r t]. exact Ho.
  - apply sent_narrow, G1_narrow.
Qed.

Lemma absolute_move_goes_through_witness :
  gcode_send_pos None (Some (PFloat (float_lit "19.5"))) None
      (place (Some (PInt (-3)), None, Some (PInt 7)) fresh_open) =
    (Ok 17,
     mkSt (with_pos (Some (PInt (-3)), Some (PFloat (float_lit "19.5")),
                     Some (PInt 7)) (self fresh_open))
          [Write (bytes_of "G1 X-3 Y19.5 Z7" ++ [x0d; x0a])]).
Proof.
  destruct (absolute_move_goes_through
              None (Some (PFloat (float_lit "19.5"))) None
              (PInt (-3)) (PFloat (float_lit "19.5")) (PInt 7)
              (place (Some (PInt (-3)), None, Some (PInt 7)) fresh_open)
              eq_refl eq_refl eq_refl eq_refl eq_refl) as [H _].
  rewrite H. reflexivity.
Defined.

(* ===================================================================== *)
(** ** Coordinates on the wire *)
(* ===================================================================== *)

(** An absolute move with its three coordinates given, over an open
    transport. *)
Lemma send_pos_given (a b c : num) (s : St) :
  transport_of (self s) = Opened ->
  let line := GCODE_G1 (render a) (render b) (render c) in
  gcode_send_pos (Some a) (Some b) (Some c) s =
    (Ok (Z.of_nat (String.length line) + 2),
     mkSt (with_pos (Some a, Some b, Some c) (self s))
          (trace s ++ sent (self s) line)).
Proof.
  intros Ho line. rewrite send_pos_eq.
  assert (R : resolved (self s) (Some a) (Some b) (Some c) = Some (a, b, c))
    by reflexivity.
  rewrite R. rewrite transmit_open_length.
  - destruct s as [r t]. reflexivity.
  - destruct s as [r t]. exact Ho.
Qed.

Lemma format_1f_not_finite (f : spec_float) :
  is_finite f = false ->
  format_1f f = "inf"%string \/ format_1f f = "-inf"%string \/
  format_1f f = "nan"%string.
Proof.
  destruct f as [s|s| |s m e]; try discriminate; intros _.
  - destruct s; [right; left | left]; reflexivity.
  - right. right. reflexivity.
Qed.

(** C5, amended: on every session with an open transport (a fresh one in
    particular) [gcode_send_pos(0, 120, 120)] writes exactly the bytes of
    [G1 X0 Y120 Z120] followed by carriage return and line feed, and the
    tracked position becomes (0, 120, 120).  In general, for coordinates
    the interpreter renders (any float, an integer within its digit limit),
    [gcode_send_pos(a, b, c)] over an open transport returns, tracks
    (a, b, c) and writes exactly the bytes of [G1 X.. Y.. Z..], CR, LF,
    where each literal is what the formatting step of the method yields for
    the coordinate: for an integer its numeral, with no decimal point; for
    a finite fractional coordinate a text with exactly one digit after its
    only decimal point, [19.5] for 19.5; for a fractional coordinate that
    is not finite one of [inf], [-inf], [nan]. *)
Theorem home_move_and_rendering :
  (forall s, transport_of (self s) = Opened ->
     gcode_send_pos (Some (PInt 0)) (Some (PInt 120)) (Some (PInt 120)) s =
       (Ok 17,
        mkSt (with_pos (Some (PInt 0), Some (PInt 120), Some (PInt 120)) (self s))
             (trace s ++ sent (self s) "G1 X0 Y120 Z120"))) /\
  (forall r, writes (sent r "G1 X0 Y120 Z120") =
     [map byte_of_ascii (list_ascii_of_string "G1 X0 Y120 Z120")
        ++ [x0d; x0a]]) /\
  (forall a b c s, transport_of (self s) = Opened ->
     printable a = true -> printable b = true -> printable c = true ->
     let line := GCODE_G1 (render a) (render b) (render c) in
     let out := gcode_send_pos (Some a) (Some b) (Some c) s in
     fst out = Ok (Z.of_nat (String.length line) + 2) /\
     pos_of (self (snd out)) = (Some a, Some b, Some c) /\
     writes (trace (snd out)) =
       writes (trace s) ++ [bytes_of line ++ [x0d; x0a]]) /\
  (forall v s, printable v = true ->
     fmt_pos (Some v) s = (Ok (render v), s)) /\
  (forall z, contains_char "." (render (PInt z)) = false) /\
  (forall f, is_finite f = true -> one_decimal (render (PFloat f))) /\
  (forall f, is_finite f = false ->
     render (PFloat f) = "inf"%string \/ render (PFloat f) = "-inf"%string \/
     render (PFloat f) = "nan"%string) /\
  render (PFloat (float_lit "19.5")) = "19.5"%string.
Proof.
  split; [|split; [|split; [|split; [|split; [|split; [|split]]]]]].
  - intros s Ho. rewrite send_pos_eq.
    assert (R : resolved (self s) (Some (PInt 0)) (Some (PInt 120))
                  (Some (PInt 120)) = Some (PInt 0, PInt 120, PInt 120))
      by reflexivity.
    rewrite R. rewrite transmit_open.
    + destruct s as [r t]. reflexivity.
    + destruct s as [r t]. exact Ho.
  - intros r. unfold sent. destruct (_dont_print_logs r); reflexivity.
  - intros a b c s Ho _ _ _ line out. subst out.
    rewrite (send_pos_given a b c s Ho). fold line. cbn [fst snd self trace].
    split; [reflexivity|]. split.
    + destruct s as [r t]. reflexivity.
    + rewrite writes_app. f_equal. apply sent_narrow, G1_narrow.
  - intros v s _. apply fmt_pos_some.
  - intros z. apply str_int_has_no_point.
  - intros f Hf. apply format_1f_finite, Hf.
  - intros f Hf. apply format_1f_not_finite, Hf.
  - reflexivity.
Qed.

Lemma home_move_and_rendering_witness :
  gcode_send_pos (Some (PInt 0)) (Some (PInt 120)) (Some (PInt 120)) fresh_open =
    (Ok 17,
     mkSt (with_pos (Some (PInt 0), Some (PInt 120), Some (PInt 120))
                    (self fresh_open))
          [Write (map byte_of_ascii (list_ascii_of_string "G1 X0 Y120 Z120")
                    ++ [x0d; x0a])]) /\
  writes (trace (snd (gcode_send_pos (Some (PInt 0)) (Some (PInt 120))
                        (Some (PFloat (float_lit "19.5"))) fresh_open))) =
    [bytes_of "G1 X0 Y120 Z19.5" ++ [x0d; x0a]] /\
  one_decimal (render (PFloat (float_lit "19.5"))).
Proof.
  split; [|split].
  - apply (proj1 home_move_and_rendering fresh_open). reflexivity.
  - apply (proj1 (proj2 (proj2 home_move_and_rendering))
             (PInt 0) (PInt 120) (PFloat (float_lit "19.5")) fresh_open
             eq_refl eq_refl eq_refl eq_refl).
  - apply (proj1 (proj2 (proj2 (proj2 (proj2 (proj2
             home_move_and_rendering)))))).
    reflexivity.
Defined.




(* ===================================================================== *)
(** ** Presets *)
(* ===================================================================== *)

Lemma gcode_pos_eq (to : string) (s : St) :
  gcode_pos to s =
    match preset_of to with
    | Some (a, b, c) => gcode_send_pos (Some a) (Some b) (Some c) s
    | None => (Ok 0, s)
    end.
Proof.
  unfold gcode_pos, preset_of, POS_HOME, POS_END_STOP, POS_BOTTOM, POS_REST.
  destruct (String.eqb to "home"); [reflexivity|].
  destruct (String.eqb to "end_stop"); [reflexivity|].
  destruct (String.eqb to "bottom"); [reflexivity|].
  destruct (String.eqb to "rest"); reflexivity.
Qed.

(** X7: [gcode_pos] with a name that is none of the four presets does
    nothing at all and returns 0, even on a session without transport.
    With a preset name the tracked position is the preset after the call
    whatever the transport: over an open one the line is written whole and
    its length plus two returned, otherwise the transport's error is raised
    and nothing is written. *)
Theorem preset_by_name (to : string) (s : St) :
  match preset_of to with
  | None => gcode_pos to s = (Ok 0, s)
  | Some (a, b, c) =>
      let line := GCODE_G1 (render a) (render b) (render c) in
      pos_of (self (snd (gcode_pos to s))) = (Some a, Some b, Some c) /\
      (transport_of (self s) = Opened ->
       fst (gcode_pos to s) = Ok (Z.of_nat (String.length line) + 2) /\
       writes (trace (snd (gcode_pos to s))) =
         writes (trace s) ++ [bytes_of line ++ [x0d; x0a]]) /\
      (transport_of (self s) <> Opened ->
       fst (gcode_pos to s) = Err (transport_error (self s)) /\
       trace (snd (gcode_pos to s)) = trace s)
  end.
Proof.
  rewrite gcode_pos_eq. destruct (preset_of to) as [[[a b] c]|]; [|reflexivity].
  cbv zeta. rewrite send_pos_eq.
  assert (R : resolved (self s) (Some a) (Some b) (Some c) = Some (a, b, c))
    by reflexivity.
  rewrite R. split; [|split].
  - rewrite transmit_self. apply pos_of_place.
  - intros Ho. rewrite transmit_open_length by (destruct s; exact Ho).
    cbn [fst snd trace]. split; [reflexivity|].
    rewrite writes_app, sent_narrow by apply G1_narrow.
    destruct s; reflexivity.
  - intros Hc. rewrite transmit_not_open by (destruct s; exact Hc).
    destruct s; split; reflexivity.
Qed.

Lemma preset_by_name_witness :
  gcode_pos "Home" fresh_absent = (Ok 0, fresh_absent) /\
  pos_of (self (snd (gcode_pos "rest" fresh_closed))) =
    (Some (PInt 0), Some (PInt 40), Some (PInt 70)) /\
  fst (gcode_pos "rest" fresh_closed) = Err ConnectionError.
Proof.
  split; [exact (preset_by_name "Home" fresh_absent)|].
  destruct (preset_by_name "rest" fresh_closed) as [Hp [_ Hc]].
  split; [exact Hp|]. apply Hc. discriminate.
Defined.

(* ===================================================================== *)
(** ** Steps *)
(* ===================================================================== *)





Lemma discard_snd {A} (m : M A) (s : St) : snd (discard m s) = snd (m s).
Proof. unfold discard, bind, ret. destruct (m s) as [[a|e] s']; reflexivity. Qed.





(* ===================================================================== *)
(** ** Commands that only actuate *)
(* ===================================================================== *)

(** X10: the motor, gripper, fan and attachment commands never touch the
    object: tracked position, flag, step sizes, attachment and transport
    are after the call what they were before, whether it returned or
    raised; and the call writes at most one line. *)
Theorem actuation_leaves_object (o : op) (s : St) :
  is_actuation o = true ->
  self (snd (run_op o s)) = self s /\
  exists added : list (list byte),
    writes (trace (snd (run_op o s))) = writes (trace s) ++ added /\
    (List.length added <= 1)%nat.
Proof.
  intros Ho.
  assert (T : forall g,
    self (snd (__gcode_send g s)) = self s /\
    exists added, writes (trace (snd (__gcode_send g s)))
                    = writes (trace s) ++ added /\
                  (List.length added <= 1)%nat).
  { intros g. split; [apply transmit_self|].
    destruct (transport_eq_dec (transport_of (self s)) Opened) as [E|E].
    - rewrite transmit_open by exact E. cbn [snd trace].
      rewrite writes_app. eexists. split; [reflexivity|].
      unfold sent. destruct (_dont_print_logs (self s)); cbn; lia.
    - rewrite transmit_not_open by exact E. exists []. cbn [snd].
      rewrite app_nil_r. split; [reflexivity | cbn; lia]. }
  destruct o; try discriminate; cbn [run_op]; rewrite discard_snd;
    try apply T.
  - rewrite attachment_high_eq.
    destruct (attachment (self s) =? ATTACHMENT_GRIPPER); [apply T|].
    destruct (attachment (self s) =? ATTACHMENT_FAN); [apply T|].
    split; [reflexivity|]. exists []. cbn [snd]. rewrite app_nil_r.
    split; [reflexivity | cbn; lia].
  - rewrite attachment_low_eq.
    destruct (attachment (self s) =? ATTACHMENT_GRIPPER); [apply T|].
    destruct (attachment (self s) =? ATTACHMENT_FAN); [apply T|].
    split; [reflexivity|]. exists []. cbn [snd]. rewrite app_nil_r.
    split; [reflexivity | cbn; lia].
Qed.

Lemma actuation_leaves_object_witness :
  self (snd (run_op (OpCloseGripper 25) fresh_open)) = self fresh_open.
Proof.
  apply (proj1 (actuation_leaves_object (OpCloseGripper 25) fresh_open eq_refl)).
Defined.

(* ===================================================================== *)
(** ** Opening, closing and tearing down *)
(* ===================================================================== *)


(** The [try] of [open_connection], by what [open()] answers. *)
Lemma open_attempt (sp : Serial) (s : St) :
  try_OSError
    (print_log "Opening connection to serial port" NL ;;
     sp' <- lift (serial_open sp) ;;
     modify_self (set_serial_port (Some sp')))
    (fun err =>
       __print_log ("error opening serial port: " ++ err)%string NL true) s =
  match serial_open sp with
  | Ok sp' =>
      (Ok tt, mkSt (set_serial_port (Some sp') (self s))
                   (trace s ++ logged (self s) "Opening connection to serial port"))
  | Err (OSError msg) =>
      (Ok tt, mkSt (self s)
                   (trace s ++ logged (self s) "Opening connection to serial port"
                      ++ [Print ("RobotArm: " ++ ("error opening serial port: "
                                                    ++ msg) ++ NL)%string]))
  | Err e =>
      (Err e, mkSt (self s)
                   (trace s ++ logged (self s) "Opening connection to serial port"))
  end.
Proof.
  unfold try_OSError, bind at 1. rewrite print_log_eq.
  unfold bind, lift, modify_self, __print_log, get_self, emit.
  cbn [self trace].
  destruct (serial_open sp) as [sp'|e]; [reflexivity|].
  destruct e; try reflexivity.
  unfold bind. cbn [self trace]. rewrite orb_true_r. cbn [self trace].
  rewrite <- app_assoc. reflexivity.
Qed.


Lemma open_connection_err_eq (sp : Serial) (msg : string) (s : St) :
  serial_port (self s) = Some sp ->
  serial_open sp = Err (OSError msg) ->
  open_connection s =
    _init_seq
      (mkSt (self s)
            (trace s ++ logged (self s) "Opening connection to serial port"
               ++ [Print ("RobotArm: error opening serial port: "
                            ++ msg ++ NL)])).
Proof.
  intros Hsp Hopen. unfold open_connection.
  unfold bind at 1, get_self at 1. rewrite Hsp.
  unfold bind at 1. rewrite open_attempt, Hopen. reflexivity.
Qed.

(** The handshake cannot start on a transport that is not open. *)
Lemma init_seq_blocked (s : St) :
  transport_of (self s) <> Opened ->
  __already_init (self s) = false ->
  _init_seq s =
    (Err (transport_error (self s)),
     mkSt (self s) (trace s ++ [Sleep settle_delay])).
Proof.
  intros Hc Hi. unfold _init_seq.
  unfold bind at 1, get_self at 1. rewrite Hi.
  unfold bind at 1, emit at 1.
  unfold bind at 1, gcode_enable_motors.
  rewrite transmit_not_open by exact Hc. reflexivity.
Qed.



(** X12: [open_connection] on a closed port that the system refuses to
    open.  The error is swallowed and printed, even on a session that logs
    nothing, and the object is unchanged.  Not yet initialized, the call
    then raises the connection error out of the handshake, after the settle
    delay and without writing a byte; already initialized, it returns
    normally although the port is still closed. *)
Theorem open_connection_refused (sp : Serial) (msg : string) (s : St) :
  serial_port (self s) = Some sp ->
  is_open sp = false ->
  serial_open sp = Err (OSError msg) ->
  let t1 := trace s ++ logged (self s) "Opening connection to serial port"
              ++ [Print ("RobotArm: error opening serial port: " ++ msg ++ NL)] in
  (__already_init (self s) = false ->
   open_connection s =
     (Err ConnectionError, mkSt (self s) (t1 ++ [Sleep settle_delay]))) /\
  (__already_init (self s) = true ->
   open_connection s =
     (Ok tt, mkSt (self s) (t1 ++ logged (self s) "already initialized"))).
Proof.
  intros Hsp Hclosed Hopen t1.
  rewrite (open_connection_err_eq sp msg s Hsp Hopen). fold t1. split.
  - intros Hi. rewrite init_seq_blocked.
    + unfold transport_error. cbn [self]. rewrite Hsp. reflexivity.
    + unfold transport_of. cbn [self]. rewrite Hsp, Hclosed. discriminate.
    + exact Hi.
  - intros Hi. rewrite init_seq_again by exact Hi. reflexivity.
Qed.

Lemma open_connection_refused_witness :
  open_connection (fresh (Some busy_port)) =
    (Err ConnectionError,
     mkSt (self (fresh (Some busy_port)))
          [Print ("RobotArm: error opening serial port: "
                    ++ "could not open port /dev/ttyUSB0" ++ NL);
           Sleep settle_delay]).
Proof.
  destruct (open_connection_refused busy_port
              "could not open port /dev/ttyUSB0" (fresh (Some busy_port))
              eq_refl eq_refl eq_refl) as [H _].
  apply (H eq_refl).
Defined.

(** X13: without a transport both [open_connection] and
    [close_connection] raise the configuration error and change nothing.
    With one, [close_connection] always returns: it logs, leaves the port
    closed and everything else in the object as it was; a send that follows
    raises the connection error, and closing once more changes nothing in
    the object. *)
Theorem close_connection_closes (s : St) :
  (serial_port (self s) = None ->
   open_connection s = (Err ConfigurationError, s) /\
   close_connection s = (Err ConfigurationError, s)) /\
  (forall sp, serial_port (self s) = Some sp ->
   let s' := mkSt (set_serial_port (Some (set_is_open false sp)) (self s))
                  (trace s ++ logged (self s) "Closing connection to serial port") in
   close_connection s = (Ok tt, s') /\
   transport_of (self s') = Closed /\
   (forall gcode, __gcode_send gcode s' = (Err ConnectionError, s')) /\
   self (snd (close_connection s')) = self s').
Proof.
  split.
  - intros Hn. unfold open_connection, close_connection, bind, get_self.
    rewrite Hn. split; reflexivity.
  - intros sp Hsp s'.
    assert (E : forall s0 sp0, serial_port (self s0) = Some sp0 ->
              close_connection s0 =
                (Ok tt, mkSt (set_serial_port (Some (set_is_open false sp0))
                                              (self s0))
                             (trace s0 ++ logged (self s0)
                                "Closing connection to serial port"))).
    { intros s0 sp0 H0. unfold close_connection.
      unfold bind at 1, get_self at 1. rewrite H0.
      unfold bind. rewrite print_log_eq. reflexivity. }
    split; [apply E, Hsp|]. split; [reflexivity|]. split.
    + intros gcode. rewrite transmit_not_open by discriminate. reflexivity.
    + rewrite (E s' (set_is_open false sp)) by reflexivity. reflexivity.
Qed.

Lemma close_connection_closes_witness :
  close_connection fresh_absent = (Err ConfigurationError, fresh_absent) /\
  close_connection fresh_open = (Ok tt, fresh_closed).
Proof.
  split.
  - apply (proj1 (close_connection_closes fresh_absent) eq_refl).
  - apply (proj2 (close_connection_closes fresh_open) (usb_port true) eq_refl).
Defined.

(** X14: the destructor never raises and never logs, with or without a
    transport; after it the transport is not open, and nothing else in the
    object has changed; on a session whose transport was not open it
    changes nothing at all. *)
Theorem destructor_closes_quietly (s : St) :
  fst (__del__ s) = Ok tt /\
  trace (snd (__del__ s)) = trace s /\
  transport_of (self (snd (__del__ s))) <> Opened /\
  pos_of (self (snd (__del__ s))) = pos_of (self s) /\
  __already_init (self (snd (__del__ s))) = __already_init (self s) /\
  (transport_of (self s) <> Opened -> snd (__del__ s) = s).
Proof.
  unfold __del__, transport_of, bind, get_self.
  destruct (serial_port (self s)) as [sp|] eqn:E.
  - destruct (is_open sp) eqn:O; cbn; rewrite ?E, ?O;
      repeat split; try discriminate; try reflexivity; congruence.
  - cbn. rewrite E. repeat split; discriminate.
Qed.

Lemma destructor_closes_quietly_witness :
  snd (__del__ fresh_closed) = fresh_closed /\
  transport_of (self (snd (__del__ fresh_open))) <> Opened.
Proof.
  split.
  - apply (proj2 (proj2 (proj2 (proj2 (proj2
             (destructor_closes_quietly fresh_closed)))))). discriminate.
  - apply (proj1 (proj2 (proj2 (destructor_closes_quietly fresh_open)))).
Defined.

(* ===================================================================== *)
(** ** The constructor *)
(* ===================================================================== *)

Lemma init_with_transport (ports : list string)
    (os_err : string -> option string) (att : Z) (sp : Serial)
    (use_default start verbose : bool) :
  __init__ ports os_err att (Some sp) use_default start verbose =
    (if is_open sp then _init_seq
     else if start then open_connection else ret tt)
      (mkSt (new_arm att (Some sp) verbose) []).
Proof.
  unfold __init__, new_arm, is_connection_open.
  unfold bind, ret, get_self. cbn [self serial_port].
  destruct (is_open sp); [|destruct start]; reflexivity.
Qed.

Lemma init_discovering (ports : list string)
    (os_err : string -> option string) (att : Z) (start verbose : bool) :
  __init__ ports os_err att None true start verbose =
    match get_default_serial_port ports os_err with
    | Ok sp =>
        (if is_open sp then _init_seq
         else if start then open_connection else ret tt)
          (mkSt (new_arm att (Some sp) verbose) [])
    | Err e => (Err e, mkSt (new_arm att None verbose) [])
    end.
Proof.
  unfold __init__, new_arm, is_connection_open.
  unfold bind, ret, get_self, lift, modify_self.
  destruct (get_default_serial_port ports os_err) as [sp|e]; [|reflexivity].
  cbn [self serial_port set_serial_port trace attachment _dont_print_logs
       __already_init __x_pos __y_pos __z_pos coarse_step fine_step].
  destruct (is_open sp); [|destruct start]; reflexivity.
Qed.





(** X17: the constructor without a usable transport.  With no transport
    and discovery switched off it raises the configuration error when told
    to connect, and otherwise returns an object on which every
    transmission raises that error.  With a closed transport that the
    system refuses to open it raises the connection error, having printed
    the system's message even when logging is off, waited the settle delay
    and sent nothing. *)
Theorem constructor_without_link (ports : list string)
    (os_err : string -> option string) (att : Z) (verbose : bool) :
  __init__ ports os_err att None false true verbose =
    (Err ConfigurationError, mkSt (new_arm att None verbose) []) /\
  __init__ ports os_err att None false false verbose =
    (Ok tt, mkSt (new_arm att None verbose) []) /\
  (forall gcode,
     __gcode_send gcode (mkSt (new_arm att None verbose) []) =
       (Err ConfigurationError, mkSt (new_arm att None verbose) [])) /\
  (forall sp msg use_default,
     is_open sp = false -> serial_open sp = Err (OSError msg) ->
     let r := new_arm att (Some sp) verbose in
     __init__ ports os_err att (Some sp) use_default true verbose =
       (Err ConnectionError,
        mkSt r (logged r "Opening connection to serial port"
                  ++ [Print ("RobotArm: error opening serial port: "
                               ++ msg ++ NL);
                      Sleep settle_delay]))).
Proof.
  split; [reflexivity|]. split; [reflexivity|]. split.
  - intros gcode. rewrite transmit_not_open by discriminate. reflexivity.
  - intros sp msg ud Hc Hopen r. rewrite init_with_transport, Hc. fold r.
    rewrite (open_connection_err_eq sp msg (mkSt r []) eq_refl Hopen).
    rewrite init_seq_blocked.
    + cbn [self trace List.app]. rewrite <- app_assoc. reflexivity.
    + unfold transport_of. cbn. rewrite Hc. discriminate.
    + reflexivity.
Qed.

Lemma constructor_without_link_witness :
  __init__ [] (fun _ => None) ATTACHMENT_GRIPPER (Some busy_port)
           false true false =
    (Err ConnectionError,
     mkSt (new_arm ATTACHMENT_GRIPPER (Some busy_port) false)
          [Print ("RobotArm: error opening serial port: "
                    ++ "could not open port /dev/ttyUSB0" ++ NL);
           Sleep settle_delay]).
Proof.
  apply (proj2 (proj2 (proj2
           (constructor_without_link [] (fun _ => None)
              ATTACHMENT_GRIPPER false)))
           busy_port "could not open port /dev/ttyUSB0" false
           eq_refl eq_refl).
Defined.

(* ===================================================================== *)
(** ** What the operations keep *)
(* ===================================================================== *)

(** Every method again, for an invariant that need not survive an
    arbitrary event or an arbitrary write to an axis: only the changes the
    code really makes are asked for. *)
Section Keeps.
Variable P : St -> Prop.
Hypothesis K_sleep : forall q, preserves P (emit (Sleep q)).
Hypothesis K_print : forall msg e, preserves P (print_log msg e).
Hypothesis K_x : forall n, preserves P (modify_self (set_x_pos (Some n))).
Hypothesis K_y : forall n, preserves P (modify_self (set_y_pos (Some n))).
Hypothesis K_z : forall n, preserves P (modify_self (set_z_pos (Some n))).
Hypothesis K_flag : preserves P (modify_self (set_already_init true)).
Hypothesis K_close : forall sp,
  preserves P (modify_self (set_serial_port (Some (set_is_open false sp)))).
Hypothesis K_transmit : forall gcode, preserves P (__gcode_send gcode).

Hint Resolve K_sleep K_print K_x K_y K_z K_flag K_close K_transmit : arm.

Lemma keeps_coerce a : preserves P (coerce a).
Proof. unfold coerce. pres. Qed.
Hint Resolve keeps_coerce : arm.

Lemma keeps_update_pos x y z : preserves P (__update_pos x y z).
Proof. unfold __update_pos, update_axis. pres. Qed.
Hint Resolve keeps_update_pos : arm.

Lemma keeps_fmt_pos v : preserves P (fmt_pos v).
Proof. unfold fmt_pos. pres. Qed.
Hint Resolve keeps_fmt_pos : arm.

Lemma keeps_send_pos x y z : preserves P (gcode_send_pos x y z).
Proof. unfold gcode_send_pos. pres. Qed.
Hint Resolve keeps_send_pos : arm.

Lemma keeps_pos to : preserves P (gcode_pos to).
Proof.
  unfold gcode_pos, gcode_pos_home, gcode_pos_end_stop, gcode_pos_bottom,
    gcode_pos_rest. pres.
Qed.
Hint Resolve keeps_pos : arm.

Lemma keeps_send_pos_delta dx dy dz : preserves P (gcode_send_pos_delta dx dy dz).
Proof. unfold gcode_send_pos_delta. pres. Qed.
Hint Resolve keeps_send_pos_delta : arm.

Lemma keeps_step a c p : preserves P (step_method a c p).
Proof.
  destruct a, c, p; cbn [step_method];
    unfold gcode_x_coarse_pos, gcode_y_coarse_pos, gcode_z_coarse_pos,
      gcode_x_coarse_neg, gcode_y_coarse_neg, gcode_z_coarse_neg,
      gcode_x_fine_pos, gcode_y_fine_pos, gcode_z_fine_pos,
      gcode_x_fine_neg, gcode_y_fine_neg, gcode_z_fine_neg; pres.
Qed.
Hint Resolve keeps_step : arm.

Lemma keeps_seg_action c p : preserves P (seg_action c p).
Proof.
  unfold seg_action.
  destruct (Ascii.eqb c "X"); [pres|].
  destruct (Ascii.eqb c "Y"); [pres|].
  destruct (Ascii.eqb c "Z"); [pres|].
  destruct (Ascii.eqb c "G"); pres.
Qed.
Hint Resolve keeps_seg_action : arm.

Lemma keeps_scan_segs segs : preserves P (scan_segs segs).
Proof. induction segs as [|seg rest IH]; cbn [scan_segs]; pres. Qed.
Hint Resolve keeps_scan_segs : arm.

Lemma keeps_send gcode : preserves P (gcode_send gcode).
Proof. unfold gcode_send. pres. Qed.
Hint Resolve keeps_send : arm.

Lemma keeps_attachment_high : preserves P gcode_attachment_high.
Proof.
  unfold gcode_attachment_high, gcode_close_gripper, gcode_enable_fan. pres.
Qed.

Lemma keeps_attachment_low : preserves P gcode_attachment_low.
Proof.
  unfold gcode_attachment_low, gcode_open_gripper, gcode_disable_fan. pres.
Qed.
Hint Resolve keeps_attachment_high keeps_attachment_low : arm.

Lemma keeps_init_seq : preserves P _init_seq.
Proof. unfold _init_seq, gcode_enable_motors, gcode_pos_end_stop. pres. Qed.
Hint Resolve keeps_init_seq : arm.

Lemma keeps_close_connection : preserves P close_connection.
Proof. unfold close_connection. pres. Qed.
Hint Resolve keeps_close_connection : arm.

(** Everything but opening the transport and setting a step size. *)
Lemma keeps_plain_op (o : op) :
  op_is_open o = false -> sets_step o = false -> preserves P (run_op o).
Proof.
  intros Ho Hs. destruct o; try discriminate; cbn [run_op]; unfold discard,
    gcode_enable_motors, gcode_disable_motors, gcode_close_gripper,
    gcode_open_gripper, gcode_enable_fan, gcode_disable_fan; pres.
Qed.

Section WithSteps.
Hypothesis K_coarse : forall v, preserves P (modify_self (set_coarse v)).
Hypothesis K_fine : forall v, preserves P (modify_self (set_fine v)).

Lemma keeps_closed_op (o : op) :
  op_is_open o = false -> preserves P (run_op o).
Proof.
  intros Ho. destruct (sets_step o) eqn:Hs.
  - destruct o; try discriminate; cbn [run_op];
      unfold set_coarse_step, set_fine_step; auto.
  - apply keeps_plain_op; assumption.
Qed.
End WithSteps.

Section WithOpen.
Hypothesis K_force : forall err,
  preserves P
    (__print_log ("error opening serial port: " ++ err)%string NL true).
Hypothesis K_open : forall sp,
  preserves P (modify_self (set_serial_port (Some sp))).
Hint Resolve K_force K_open : arm.

Lemma keeps_open_connection : preserves P open_connection.
Proof. unfold open_connection. pres. Qed.

Lemma keeps_fixed_steps_op (o : op) :
  sets_step o = false -> preserves P (run_op o).
Proof.
  intros Hs. destruct (op_is_open o) eqn:Ho.
  - destruct o; try discriminate. apply keeps_open_connection.
  - apply keeps_plain_op; assumption.
Qed.

Hypothesis K_coarse : forall v, preserves P (modify_self (set_coarse v)).
Hypothesis K_fine : forall v, preserves P (modify_self (set_fine v)).

Lemma keeps_any_op (o : op) : preserves P (run_op o).
Proof.
  destruct (sets_step o) eqn:Hs.
  - destruct o; try discriminate; cbn [run_op];
      unfold set_coarse_step, set_fine_step; auto.
  - apply keeps_fixed_steps_op, Hs.
Qed.
End WithOpen.
End Keeps.

(* ===================================================================== *)
(** ** Whole sessions *)
(* ===================================================================== *)

(** An invariant of every operation of a session is one of the session. *)
Lemma run_ops_keeps (P : St -> Prop) (os : list op) :
  (forall o, In o os -> preserves P (run_op o)) ->
  forall s, P s -> P (run_ops os s).
Proof.
  induction os as [|o r IH]; intros H s Hs; cbn [run_ops]; [exact Hs|].
  apply IH.
  - intros o' Hin. apply H. right. exact Hin.
  - apply (H o (or_introl eq_refl)). exact Hs.
Qed.

Lemma transmit_keeps_self (P : RobotArm -> Prop) (gcode : string) :
  preserves (fun s => P (self s)) (__gcode_send gcode).
Proof.
  intros s H. unfold __gcode_send, bind, get_self.
  destruct (serial_port (self s)) as [sp|]; [|exact H].
  unfold is_connection_not_open, is_connection_open, bind, get_self, ret.
  cbn [serial_port]. destruct (serial_port (self s)) as [sp'|];
    [destruct (is_open sp')|]; cbn [negb]; try exact H.
  unfold serial_write, print_log, __print_log, bind, get_self, emit, ret.
  cbn [self trace].
  destruct (negb (_dont_print_logs (self s)) || false); exact H.
Qed.

Lemma print_keeps_self (P : RobotArm -> Prop) (msg e : string) (force : bool) :
  preserves (fun s => P (self s)) (__print_log msg e force).
Proof.
  intros s H. unfold __print_log, bind, get_self, emit, ret.
  destruct (negb (_dont_print_logs (self s)) || force); exact H.
Qed.

(** X18: the attachment tag and the verbosity chosen at construction are
    those of the object for its whole life: no sequence of operations, failing
    or not, changes either. *)
Theorem configuration_is_fixed (os : list op) (s : St) :
  attachment (self (run_ops os s)) = attachment (self s) /\
  _dont_print_logs (self (run_ops os s)) = _dont_print_logs (self s).
Proof.
  set (P := fun r : RobotArm =>
    attachment r = attachment (self s) /\
    _dont_print_logs r = _dont_print_logs (self s)).
  apply (run_ops_keeps (fun s' => P (self s')) os); [|split; reflexivity].
  intros o _. apply keeps_any_op;
    try (intros; apply transmit_keeps_self);
    try (intros; apply print_keeps_self);
    try (intros; unfold print_log; apply print_keeps_self);
    intros; intros s' H; exact H.
Qed.

(** X19: an axis that has a tracked value never goes back to unset,
    whatever operations follow and whether they fail or not. *)
Theorem set_axis_stays_set (os : list op) (s : St) :
  axes_kept (set_axes (self s)) (set_axes (self (run_ops os s))).
Proof.
  set (P := fun r : RobotArm => axes_kept (set_axes (self s)) (set_axes r)).
  apply (run_ops_keeps (fun s' => P (self s')) os).
  - intros o _. apply keeps_any_op;
      try (intros; apply transmit_keeps_self);
      try (intros; apply print_keeps_self);
      try (intros; unfold print_log; apply print_keeps_self);
      intros; intros s' H; try exact H;
      unfold P, axes_kept, set_axes in *; cbn;
      destruct (__x_pos (self s)), (__y_pos (self s)), (__z_pos (self s)),
        (__x_pos (self s')), (__y_pos (self s')), (__z_pos (self s'));
      intuition congruence.
  - unfold P, axes_kept, set_axes.
    destruct (__x_pos (self s)), (__y_pos (self s)), (__z_pos (self s));
      intuition congruence.
Qed.

(** X20: the step sizes are changed by [set_coarse_step] and
    [set_fine_step] and by nothing else: a session without them ends with the
    step sizes it began with. *)
Theorem step_sizes_change_only_by_setters (os : list op) (s : St) :
  forallb (fun o => negb (sets_step o)) os = true ->
  coarse_step (self (run_ops os s)) = coarse_step (self s) /\
  fine_step (self (run_ops os s)) = fine_step (self s).
Proof.
  intros Hos.
  set (P := fun r : RobotArm =>
    coarse_step r = coarse_step (self s) /\ fine_step r = fine_step (self s)).
  apply (run_ops_keeps (fun s' => P (self s')) os); [|split; reflexivity].
  intros o Hin. rewrite forallb_forall in Hos. specialize (Hos o Hin).
  apply keeps_fixed_steps_op;
    try (intros; apply transmit_keeps_self);
    try (intros; apply print_keeps_self);
    try (intros; unfold print_log; apply print_keeps_self);
    try (intros; intros s' H; exact H).
  destruct (sets_step o); [discriminate|reflexivity].
Qed.

Lemma step_sizes_change_only_by_setters_witness :
  coarse_step (self (run_ops
    [OpOpenConnection; OpPos "home"; OpStep AxZ true false; OpSend "G1 X1 Y2";
     OpCloseConnection] fresh_closed)) = 20 /\
  fine_step (self (run_ops
    [OpOpenConnection; OpPos "home"; OpStep AxZ true false; OpSend "G1 X1 Y2";
     OpCloseConnection] fresh_closed)) = 5.
Proof.
  exact (step_sizes_change_only_by_setters
    [OpOpenConnection; OpPos "home"; OpStep AxZ true false; OpSend "G1 X1 Y2";
     OpCloseConnection] fresh_closed eq_refl).
Defined.

Lemma prints_app (t u : list event) : prints (t ++ u) = prints t ++ prints u.
Proof.
  induction t as [|ev t IH]; [reflexivity|].
  rewrite <- app_comm_cons. destruct ev; cbn [prints]; rewrite IH; reflexivity.
Qed.

Lemma open_failure_line (err : string) :
  is_open_failure ("RobotArm: error opening serial port: " ++ err ++ NL) = true.
Proof.
  unfold is_open_failure. cbn. destruct (err ++ NL)%string; reflexivity.
Qed.

Lemma quiet_print (w : list string) (msg e : string) :
  preserves (quiet_since w) (print_log msg e).
Proof.
  intros s [Hq H]. unfold print_log, __print_log, bind, get_self, ret.
  rewrite Hq. cbn [negb orb]. split; assumption.
Qed.

Lemma mute_print (w : list string) (msg e : string) :
  preserves (mute_since w) (print_log msg e).
Proof.
  intros s [Hq H]. unfold print_log, __print_log, bind, get_self, ret.
  rewrite Hq. cbn [negb orb]. split; assumption.
Qed.

Lemma quiet_transmit (w : list string) (gcode : string) :
  preserves (quiet_since w) (__gcode_send gcode).
Proof.
  intros s [Hq H]. unfold __gcode_send, bind, get_self.
  destruct (serial_port (self s)) as [sp|] eqn:E; [|split; assumption].
  unfold is_connection_not_open, is_connection_open, bind, get_self, ret.
  cbn [serial_port]. rewrite E.
  destruct (is_open sp); cbn [negb]; [|split; assumption].
  unfold serial_write, print_log, __print_log, bind, get_self, emit, ret.
  cbn [self trace]. rewrite Hq. cbn [negb orb snd self trace].
  split; [exact Hq|]. destruct H as [extra [H1 H2]]. exists extra.
  cbn [trace]. rewrite prints_app. cbn [prints]. rewrite app_nil_r.
  split; assumption.
Qed.

Lemma mute_transmit (w : list string) (gcode : string) :
  preserves (mute_since w) (__gcode_send gcode).
Proof.
  intros s [Hq H]. unfold __gcode_send, bind, get_self.
  destruct (serial_port (self s)) as [sp|] eqn:E; [|split; assumption].
  unfold is_connection_not_open, is_connection_open, bind, get_self, ret.
  cbn [serial_port]. rewrite E.
  destruct (is_open sp); cbn [negb]; [|split; assumption].
  unfold serial_write, print_log, __print_log, bind, get_self, emit, ret.
  cbn [self trace]. rewrite Hq. cbn [negb orb snd self trace].
  split; [exact Hq|]. cbn [trace]. rewrite prints_app. cbn [prints].
  rewrite app_nil_r. exact H.
Qed.

Lemma quiet_run_op (w : list string) (o : op) :
  preserves (quiet_since w) (run_op o).
Proof.
  apply keeps_any_op; intros;
    try apply quiet_print; try apply quiet_transmit;
    try (intros s [Hq H]; split; [exact Hq|exact H]).
  - intros s [Hq [extra [H1 H2]]]. unfold emit. cbn [snd self trace].
    split; [exact Hq|]. exists extra. cbn [snd self trace].
    rewrite prints_app, H1.
    cbn [prints]. rewrite app_nil_r. split; [reflexivity|exact H2].
  - intros s [Hq [extra [H1 H2]]].
    unfold __print_log, bind, get_self, emit. rewrite orb_true_r.
    cbn [snd self trace]. split; [exact Hq|].
    exists (extra ++ ["RobotArm: error opening serial port: " ++ err ++ NL]%string).
    cbn [snd self trace]. rewrite prints_app, H1. cbn [prints]. split.
    + symmetry. apply app_assoc.
    + rewrite forallb_app, H2. cbn [forallb andb].
      rewrite open_failure_line. reflexivity.
Qed.

Lemma mute_run_op (w : list string) (o : op) :
  op_is_open o = false -> preserves (mute_since w) (run_op o).
Proof.
  intros Ho. apply keeps_closed_op; try exact Ho; intros;
    try apply mute_print; try apply mute_transmit;
    try (intros s [Hq H]; split; [exact Hq|exact H]).
  intros s [Hq H]. unfold emit. cbn [snd self trace].
  split; [exact Hq|]. cbn [snd self trace].
  rewrite prints_app, H. cbn [prints]. apply app_nil_r.
Qed.

(** X21: an object built with [verbose=False] prints nothing in any
    session that does not open the connection, and in a session that does,
    nothing but the forced line that reports a failure to open the port. *)
Theorem quiet_session_prints (os : list op) (s : St) :
  _dont_print_logs (self s) = true ->
  (exists extra, prints (trace (run_ops os s)) = prints (trace s) ++ extra /\
                 forallb is_open_failure extra = true) /\
  (forallb (fun o => negb (op_is_open o)) os = true ->
   prints (trace (run_ops os s)) = prints (trace s)).
Proof.
  intros Hq. split.
  - apply (run_ops_keeps (quiet_since (prints (trace s))) os).
    + intros o _. apply quiet_run_op.
    + split; [exact Hq|]. exists []. rewrite app_nil_r. split; reflexivity.
  - intros Hos. apply (run_ops_keeps (mute_since (prints (trace s))) os).
    + intros o Hin. rewrite forallb_forall in Hos. specialize (Hos o Hin).
      apply mute_run_op. destruct (op_is_open o); [discriminate|reflexivity].
    + split; [exact Hq|reflexivity].
Qed.

Lemma quiet_session_prints_witness :
  (exists extra,
     prints (trace (run_ops [OpPos "home"; OpCloseConnection] fresh_open)) =
     prints (trace fresh_open) ++ extra /\
     forallb is_open_failure extra = true) /\
  prints (trace (run_ops [OpPos "home"; OpCloseConnection] fresh_open)) =
  prints (trace fresh_open).
Proof.
  exact (conj
    (proj1 (quiet_session_prints [OpPos "home"; OpCloseConnection]
              fresh_open eq_refl))
    (proj2 (quiet_session_prints [OpPos "home"; OpCloseConnection]
              fresh_open eq_refl) eq_refl)).
Defined.

(* ===================================================================== *)
(** ** The scripts *)
(* ===================================================================== *)

Lemma discovery_last_usb (ports : list string)
    (os_err : string -> option string) :
  get_default_serial_port ports os_err =
    match last_usb ports with
    | None => Err TypeError
    | Some p => Ok (discovered p os_err)
    end.
Proof.
  unfold get_default_serial_port, last_usb.
  destruct (List.rev (filter usb_regex_search ports)) as [|p r] eqn:E.
  - apply (f_equal (@List.rev string)) in E. rewrite rev_involutive in E.
    rewrite E. reflexivity.
  - apply (f_equal (@List.rev string)) in E. rewrite rev_involutive in E.
    rewrite E. cbn [List.rev]. rewrite reduce_last. reflexivity.
Qed.

(** X22: what [test.py] does on any machine.  With no device whose name
    contains "usb" it stops in the constructor with the TypeError of
    [reduce]; when the system refuses to open the last such device it stops
    there with the connection error; in both cases nothing is sent.
    Otherwise it returns after sending exactly the fifteen lines of
    [test_commands], the arm at the end-stop and the port closed. *)
Theorem test_script_outcome (ports : list string)
    (os_err : string -> option string) :
  match last_usb ports with
  | None =>
      fst (main ports os_err) = Err TypeError /\
      writes (trace (snd (main ports os_err))) = []
  | Some p =>
      match os_err p with
      | Some msg =>
          fst (main ports os_err) = Err ConnectionError /\
          writes (trace (snd (main ports os_err))) = []
      | None =>
          fst (main ports os_err) = Ok tt /\
          writes (trace (snd (main ports os_err))) = lines test_commands /\
          pos_of (self (snd (main ports os_err))) = end_stop /\
          transport_of (self (snd (main ports os_err))) = Closed
      end
  end.
Proof.
  unfold main. rewrite init_discovering, discovery_last_usb.
  destruct (last_usb ports) as [p|]; [|split; reflexivity].
  unfold discovered. cbn [is_open].
  destruct (os_err p) as [msg|] eqn:E.
  - split; vm_compute; reflexivity.
  - repeat split; vm_compute; reflexivity.
Qed.

(** X23: what [scratchpad.py] does on any machine.  It finds its device as
    the library does and fails alike when there is none, but a refusal of
    the system to open the port, which [open_connection] catches and
    prints, escapes from the script as the OSError it is.  When the port
    opens the script sends, byte for byte, what the library sends on an
    open gripper arm for: enable motors, go to the end-stop, go home,
    attachment high, attachment low. *)
Theorem scratchpad_outcome (ports : list string)
    (os_err : string -> option string) :
  match last_usb ports with
  | None => scratchpad ports os_err = (Err TypeError, [])
  | Some p =>
      match os_err p with
      | Some msg => scratchpad ports os_err = (Err (OSError msg), [])
      | None =>
          fst (scratchpad ports os_err) = Ok tt /\
          writes (snd (scratchpad ports os_err)) =
            writes (trace (run_ops scratchpad_ops fresh_open))
      end
  end.
Proof.
  unfold scratchpad, last_usb.
  destruct (List.rev (filter usb_regex_search ports)) as [|p r] eqn:E;
    apply (f_equal (@List.rev string)) in E; rewrite rev_involutive in E;
    rewrite E; [reflexivity|].
  cbn [List.rev]. rewrite reduce_last. unfold serial_open. cbn [port is_open open_error].
  destruct (os_err p) as [msg|]; [reflexivity|].
  split; [reflexivity|]. vm_compute. reflexivity.
Qed.

Lemma test_script_outcome_witness :
  fst (main ["COM1"; "/dev/ttyUSB0"] (fun _ => None)) = Ok tt /\
  writes (trace (snd (main ["COM1"; "/dev/ttyUSB0"] (fun _ => None)))) =
    lines test_commands /\
  pos_of (self (snd (main ["COM1"; "/dev/ttyUSB0"] (fun _ => None)))) =
    end_stop /\
  transport_of (self (snd (main ["COM1"; "/dev/ttyUSB0"] (fun _ => None)))) =
    Closed.
Proof.
  exact (test_script_outcome ["COM1"; "/dev/ttyUSB0"] (fun _ => None)).
Defined.

Lemma scratchpad_outcome_witness :
  fst (scratchpad ["COM1"; "/dev/ttyUSB0"] (fun _ => None)) = Ok tt /\
  writes (snd (scratchpad ["COM1"; "/dev/ttyUSB0"] (fun _ => None))) =
    writes (trace (run_ops scratchpad_ops fresh_open)).
Proof.
  exact (scratchpad_outcome ["COM1"; "/dev/ttyUSB0"] (fun _ => None)).
Defined.
